(** * data_base.h: the typed operations of the object-relational core

    A shallow embedding of [include/data_base/data_base.h]: the row cursor
    [DBQueryResult], the [DataBase] interface with its pure virtual execution
    facade and SQL compilers, and the template operations built on top of
    them ([create_table], [drop_table], [query], [insert], [insert_ret_id],
    [update], [remove], [sum], [count], [average], [get_cls_info],
    [get_class_name]).

    Every operation runs in a small state monad over the process-wide
    reflector registry and the engine behind the facade.  Next to its result
    it yields the list of calls it made across its boundaries (compiler,
    facade, registration callback, member deserialisers), so that statements
    of the form "X is never invoked" or "only compiled text reaches the
    engine" can be written down and proved. *)

From stdpp Require Import base strings list gmap.
From Equations Require Import Equations.
From Stdlib Require Import ZArith Ascii.

Local Open Scope Z_scope.

(** ** Strings and C library helpers *)

(** [std::string::empty()]. *)
Definition empty (s : string) : bool :=
  match s with
  | EmptyString => true
  | String _ _ => false
  end.

(** [isspace] of <cctype> in the "C" locale: space, \t, \n, \v, \f, \r. *)
Definition isspace (c : ascii) : bool :=
  let n := nat_of_ascii c in
  (n =? 32)%nat || ((9 <=? n)%nat && (n <=? 13)%nat).

(** The value of a decimal digit character, if it is one. *)
Definition digit_of (c : ascii) : option Z :=
  let n := nat_of_ascii c in
  if ((48 <=? n)%nat && (n <=? 57)%nat) then Some (Z.of_nat n - 48) else None.

(** The digit loop of [strtol] in base 10: stops at the first non-digit. *)
Fixpoint atol_digits (acc : Z) (s : string) : Z :=
  match s with
  | EmptyString => acc
  | String c s' =>
      match digit_of c with
      | Some d => atol_digits (10 * acc + d) s'
      | None => acc
      end
  end.

Fixpoint skip_space (s : string) : string :=
  match s with
  | EmptyString => EmptyString
  | String c s' => if isspace c then skip_space s' else s
  end.

(** The range of [long] (64 bits): a value above [LONG_MAX] becomes
    [LONG_MAX], a value below [LONG_MIN] becomes [LONG_MIN]. *)
Definition saturate_long (z : Z) : Z := Z.max (- 2 ^ 63) (Z.min z (2 ^ 63 - 1)).

(** [atol] of <cstdlib>, which is [strtol] in base 10: leading white space,
    an optional sign, then decimal digits; no digits gives 0, and a value
    outside [long] saturates at [LONG_MAX] or [LONG_MIN]. *)
Definition atol (s : string) : Z :=
  saturate_long
    match skip_space s with
    | String "-" s' => - atol_digits 0 s'
    | String "+" s' => atol_digits 0 s'
    | s' => atol_digits 0 s'
    end.

(** Conversion of a [long] to [size_t] (64 bits): reduction modulo 2^64. *)
Definition to_size_t (z : Z) : Z := z mod 2 ^ 64.

(** The cast [( int32_t )i] of a [size_t]: wrap-around into the signed 32-bit
    range. *)
Definition to_int32 (z : Z) : Z := (z + 2 ^ 31) mod 2 ^ 32 - 2 ^ 31.

(** ** The row cursor: [class DBQueryResult] *)

(** A value together with the proof that it is the value inspected; used to
    remember what [next] returned in the loop of [query]. *)
Definition inspect {A : Type} (x : A) : {y : A | x = y} := exist _ x eq_refl.

(** One row: the raw text of each column, [None] for SQL NULL (the null
    pointer returned by [get_col_val]). *)
Definition Row : Type := list (option string).

(** Modelled from the spec: the drivers that implement the three pure
    virtuals [next], [get_columns] and [get_col_val] are not part of this
    header.  Per the data model the cursor is a forward-only, single-pass row
    source that exposes the ordered list of returned column names and, per
    row, the raw text of a column by index or a sentinel for SQL NULL.
    [rows] holds the rows not yet left behind; its head is the row under the
    cursor (the typed operations read [get_col_val] straight after the
    facade's [query], before any [next]). *)
Record DBQueryResult : Type := mkCursor {
  columns : list string;
  rows : list Row
}.

(** [virtual std::vector<std::string> get_columns()]. *)
Definition get_columns (c : DBQueryResult) : list string := columns c.

(** [virtual char* get_col_val( int32_t col )]: the null pointer when there is
    no row under the cursor, when [col] is out of range, or for SQL NULL. *)
Definition get_col_val (c : DBQueryResult) (col : Z) : option string :=
  match rows c with
  | [] => None
  | r :: _ => if col <? 0 then None else mjoin (r !! Z.to_nat col)
  end.

(** [virtual bool next()]: move to the next row; [true] when that row is
    valid. *)
Definition next (c : DBQueryResult) : bool * DBQueryResult :=
  match rows c with
  | [] => (false, c)
  | _ :: rest => (bool_decide (rest ≠ []), mkCursor (columns c) rest)
  end.

(** [template<class T> Optional<T> get( int32_t col )].  The second component
    lists the texts handed to [str_to_value<T>], the value codec of
    base/serialize/str_serialize.h, taken as a parameter. *)
Definition get {V : Type} (str_to_value : string → option V)
    (c : DBQueryResult) (col : Z) : option V * list string :=
  let ret : option V := None in
  let ptr := get_col_val c col in
  match ptr with
  | None => (ret, [])
  | Some text => (str_to_value text, [text])
  end.

(** ** Declarations of db_helper.h and db_reflector.h *)

(** Modelled from the spec: [DBCond] is declared in db_helper.h, which is not
    part of this header.  A condition is a recursive node: a comparison of a
    column with a literal, a conjunction, a disjunction, a negation, or the
    empty condition that matches all rows ([DBCond()]). *)
Inductive DBCond : Type :=
| CondEmpty
| Comparison (column op literal : string)
| CondAnd (l r : DBCond)
| CondOr (l r : DBCond)
| CondNot (c : DBCond).

(** Modelled from the spec: [DBQueryParam] (db_helper.h). *)
Record DBQueryParam : Type := mkQueryParam {
  projected_columns : option (list string);
  query_condition : DBCond;
  order_by : list (string * bool);
  limit : option N;
  offset : option N
}.

(** Modelled from the spec: [DBModifyParam] (db_helper.h). *)
Record DBModifyParam : Type := mkModifyParam {
  modify_condition : DBCond;
  include_columns : option (list string)
}.

(** Modelled from the spec: [CreateTblConstraint] (db_helper.h). *)
Record CreateTblConstraint : Type := mkConstraint {
  primary_key_columns : list string;
  unique_column_sets : list (list string);
  raw_extra_clauses : list string
}.

(** The default-constructed parameter objects the operations start from. *)
Definition default_query_param : DBQueryParam := mkQueryParam None CondEmpty [] None None.
Definition default_modify_param : DBModifyParam := mkModifyParam CondEmpty None.
Definition default_constraint : CreateTblConstraint := mkConstraint [] [] [].

(** [expand_create_param], [expand_query_param], [expand_modify_param]: the
    recursion over the argument pack.  Each call-site option updates the
    parameter object in turn, left to right. *)
Definition expand_param {P : Type} (param : P) (args : list (P → P)) : P :=
  fold_left (λ p arg, arg p) args param.

(** Modelled from the spec: [ClsMemberReflector] (db_reflector.h), the column
    descriptor.  Objects are passed as [void*], so one type [Obj] stands for
    every persisted object; [deserialize] is the descriptor's write, taking
    the raw text pointer (possibly null) and the object to update. *)
Record ClsMemberReflector (Obj : Type) : Type := mkMember {
  get_name : string;
  deserialize : option string → Obj → Obj
}.
Arguments mkMember {Obj} _ _.
Arguments get_name {Obj} _.
Arguments deserialize {Obj} _ _ _.

(** Modelled from the spec: the type mapping kept by [DBReflector]. *)
Record TypeMapping (Obj : Type) : Type := mkMapping {
  table_name : string;
  member_reflectors : list (ClsMemberReflector Obj)
}.
Arguments mkMapping {Obj} _ _.
Arguments table_name {Obj} _.
Arguments member_reflectors {Obj} _.

(** Modelled from the spec: [DBReflector] (db_reflector.h), the process-wide
    registry from type identity ([&typeid(T)], an address) to type mapping.
    [find_class_name] gives the empty string and [get_member_reflectors] the
    empty vector for a type that has no mapping. *)
Definition find_class_name {Obj} (inst : gmap N (TypeMapping Obj)) (type : N) : string :=
  match inst !! type with
  | Some m => table_name m
  | None => EmptyString
  end.

Definition get_member_reflectors {Obj} (inst : gmap N (TypeMapping Obj)) (type : N)
    : list (ClsMemberReflector Obj) :=
  match inst !! type with
  | Some m => member_reflectors m
  | None => []
  end.

(** ** Names defined outside this header *)

(** The status codes, the [STRING_CHECK] macro and the floating-point side of
    [atof] come from base headers and the C library; they are parameters.
    [double] is kept abstract. *)
Class TaroBase : Type := {
  TARO_OK : Z;
  TARO_ERR_FAILED : Z;
  TARO_ERR_INVALID_ARG : Z;
  STRING_CHECK : option string → bool;
  double : Type;
  atof : string → double
}.

(** ** The interface: [TARO_INTERFACE DataBase] *)

(** The pure virtuals the typed operations call.  The first three are the
    execution facade, acting on the engine behind it; the SQL compilers are
    functions of their arguments.  The header overloads the name [query] for
    the facade entry and the typed operation; the facade entry is
    [facade_query] here.  A [const char*] that may be null is an
    [option string]. *)
Class DataBase (Obj : Type) : Type := {
  Engine : Type;
  excute_cmd : string → Engine → Z * Engine;
  exec_cmd_ret_id : string → Engine → Z * Z * Engine;
  facade_query : string → Engine → option DBQueryResult * Engine;
  create_tbl_sql : string → list (ClsMemberReflector Obj) → CreateTblConstraint → string;
  query_tbl_sql : string → list (ClsMemberReflector Obj) → DBQueryParam → string;
  insert_tbl_sql : Obj → string → list (ClsMemberReflector Obj) → DBModifyParam → string;
  update_tbl_sql : Obj → string → list (ClsMemberReflector Obj) → DBModifyParam → string;
  remove_tbl_sql : string → DBCond → string;
  average_tbl_sql : string → option string → DBCond → string;
  sum_tbl_sql : string → option string → DBCond → string;
  count_tbl_sql : string → DBCond → string
}.

(** What the template parameter [T] of a typed operation provides: its type
    identity, its default-initialised value ([T element;]) and the static
    registration callback [T::db_cls_reflect], which acts on the registry. *)
Class Persisted (Obj : Type) : Type := {
  typeid : N;
  default_element : Obj;
  db_cls_reflect : gmap N (TypeMapping Obj) → gmap N (TypeMapping Obj)
}.

(** ** Calls across the boundaries of the header *)

Inductive FacadeEntry : Type := ExcuteCmd | ExecCmdRetId | Query.

(** [EvReflect]: the registration callback of the type ran.  [EvCompile]: a
    [*_tbl_sql] compiler returned [sql].  [EvFacade]: [sql] was handed to an
    entry of the execution facade.  [EvAnswer]: the facade's [query] returned
    [result] (the null pointer is [None]).  [EvDeserialize]: [deserialize] of
    the member named [member] was called with [text]. *)
Inductive Event : Type :=
| EvReflect (type : N)
| EvCompile (sql : string)
| EvFacade (entry : FacadeEntry) (sql : string)
| EvAnswer (result : option DBQueryResult)
| EvDeserialize (member : string) (text : option string).

(** The SQL texts handed to the execution facade, in order. *)
Definition facade_calls (t : list Event) : list string :=
  omap (λ e, match e with EvFacade _ sql => Some sql | _ => None end) t.

(** The [deserialize] calls made, in order. *)
Definition deserialize_calls (t : list Event) : list (string * option string) :=
  omap (λ e, match e with EvDeserialize m v => Some (m, v) | _ => None end) t.

(** The texts the compilers returned, in order. *)
Definition compile_calls (t : list Event) : list string :=
  omap (λ e, match e with EvCompile sql => Some sql | _ => None end) t.

(** Every text handed to the facade was returned by a compiler call made
    earlier on ([seen] collects the compiled texts so far). *)
Fixpoint compiled_only (seen : list string) (t : list Event) : bool :=
  match t with
  | [] => true
  | EvCompile sql :: t' => compiled_only (sql :: seen) t'
  | EvFacade _ sql :: t' => existsb (String.eqb sql) seen && compiled_only seen t'
  | _ :: t' => compiled_only seen t'
  end.

(** How a call ends: with a value, or in the abort of a failed assertion. *)
Inductive outcome (A : Type) : Type :=
| Done (a : A)
| Aborted.
Arguments Done {A} _.
Arguments Aborted {A}.

Section Operations.
Context {taro : TaroBase} {Obj : Type} {db : DataBase Obj}.

(** The state the operations act on: the global [DBReflector::instance()]
    and the engine behind the facade. *)
Record World : Type := mkWorld {
  reflector : gmap N (TypeMapping Obj);
  engine : Engine
}.

Definition M (A : Type) : Type := World → outcome A * World * list Event.

#[export] Instance M_ret : MRet M := λ A a w, (Done a, w, []).

#[export] Instance M_bind : MBind M := λ A B f m w,
  match m w with
  | (Done a, w1, t1) => let '(r, w2, t2) := f a w1 in (r, w2, t1 ++ t2)
  | (Aborted, w1, t1) => (Aborted, w1, t1)
  end.

(** The abort of a failed assertion: nothing after it runs. *)
Definition assertion_failed {A : Type} : M A := λ w, (Aborted, w, []).

(** Modelled from the spec: the [TARO_ASSERT] macro is defined in a base
    header that is not part of this one; a failed assertion is fatal and
    aborts the process. *)
Definition TARO_ASSERT (cond : bool) : M () :=
  if cond then mret () else assertion_failed.

(** A call of a [*_tbl_sql] compiler that returned [sql]. *)
Definition compiled (sql : string) : M string :=
  λ w, (Done sql, w, [EvCompile sql]).

Definition call_excute_cmd (sql : string) : M Z :=
  λ w, let '(status, e) := excute_cmd sql (engine w) in
       (Done status, mkWorld (reflector w) e, [EvFacade ExcuteCmd sql]).

Definition call_exec_cmd_ret_id (sql : string) : M (Z * Z) :=
  λ w, let '(status, id, e) := exec_cmd_ret_id sql (engine w) in
       (Done (status, id), mkWorld (reflector w) e, [EvFacade ExecCmdRetId sql]).

Definition call_query (sql : string) : M (option DBQueryResult) :=
  λ w, let '(result, e) := facade_query sql (engine w) in
       (Done result, mkWorld (reflector w) e, [EvFacade Query sql; EvAnswer result]).

Section Typed.
Context {T : Persisted Obj}.

Definition inst_find_class_name : M string :=
  λ w, (Done (find_class_name (reflector w) typeid), w, []).

Definition inst_get_member_reflectors : M (list (ClsMemberReflector Obj)) :=
  λ w, (Done (get_member_reflectors (reflector w) typeid), w, []).

Definition call_db_cls_reflect : M () :=
  λ w, (Done (), mkWorld (db_cls_reflect (reflector w)) (engine w), [EvReflect typeid]).

(** [template<typename T> void get_cls_info( name, members )]. *)
Definition get_cls_info : M (string * list (ClsMemberReflector Obj)) :=
  name ← inst_find_class_name;
  name ← (if empty name
          then call_db_cls_reflect;; inst_find_class_name
          else mret name);
  TARO_ASSERT (negb (empty name));;
  members ← inst_get_member_reflectors;
  mret (name, members).

(** [template<typename T> std::string get_class_name()]. *)
Definition get_class_name : M string :=
  name ← inst_find_class_name;
  name ← (if empty name
          then call_db_cls_reflect;; inst_find_class_name
          else mret name);
  TARO_ASSERT (negb (empty name));;
  mret name.

(** The prologue shared by the operations that need the members:
    [get_cls_info] followed by
    [TARO_ASSERT( !name.empty() && members.size() )]. *)
Definition cls_info_checked : M (string * list (ClsMemberReflector Obj)) :=
  '(name, members) ← get_cls_info;
  TARO_ASSERT (negb (empty name) && negb (length members =? 0)%nat);;
  mret (name, members).

(** [int32_t create_table( Args&&... args )]. *)
Definition create_table (args : list (CreateTblConstraint → CreateTblConstraint)) : M Z :=
  '(name, members) ← cls_info_checked;
  let constraint := expand_param default_constraint args in
  cmd ← compiled (create_tbl_sql name members constraint);
  if empty cmd then mret TARO_ERR_INVALID_ARG
  else
    status ← call_excute_cmd cmd;
    if negb (TARO_OK =? status) then mret TARO_ERR_FAILED
    else mret TARO_OK.

(** [int32_t drop_table()]. *)
Definition drop_table : M Z :=
  name ← get_class_name;
  let cmd := "drop table " +:+ name in
  status ← call_excute_cmd cmd;
  if negb (TARO_OK =? status) then mret TARO_ERR_FAILED
  else mret TARO_OK.

(** The call [( *iter )->deserialize( text, &element )]. *)
Definition call_deserialize (ptr : ClsMemberReflector Obj) (text : option string)
    (element : Obj) : M Obj :=
  λ w, (Done (deserialize ptr text element), w, [EvDeserialize (get_name ptr) text]).

(** The body of the [for] loop of [query] for column [i], named [col]:
    [std::find_if] over the members by exact name,
    [TARO_ASSERT( iter != members.end() )], and the call of the member's
    [deserialize] with the raw value of the row under the cursor. *)
Definition marshal_column (members : list (ClsMemberReflector Obj))
    (result : DBQueryResult) (i : nat) (col : string) (element : Obj) : M Obj :=
  match find (λ ptr, String.eqb (get_name ptr) col) members with
  | None => assertion_failed
  | Some ptr =>
      call_deserialize ptr (get_col_val result (to_int32 (Z.of_nat i))) element
  end.

(** [for( size_t i = 0; i < cols.size(); ++i )], entered at index [i] with
    the columns from [i] on. *)
Fixpoint marshal_columns (members : list (ClsMemberReflector Obj))
    (result : DBQueryResult) (i : nat) (cols : list string) (element : Obj) : M Obj :=
  match cols with
  | [] => mret element
  | col :: cols' =>
      element' ← marshal_column members result i col element;
      marshal_columns members result (S i) cols' element'
  end.

(** [do{ T element; for ...; query_result.emplace_back( element ); }
    while( result->next() );] *)
Equations? marshal_rows (members : list (ClsMemberReflector Obj)) (cols : list string)
    (result : DBQueryResult) (query_result : list Obj) (w : World)
    : outcome (list Obj) * World * list Event by wf (length (rows result)) lt :=
marshal_rows members cols result query_result w
    with marshal_columns members result 0 cols default_element w := {
  | (Aborted, w1, t1) => (Aborted, w1, t1)
  | (Done element, w1, t1) with inspect (next result) := {
      | exist _ (true, result') Hnext =>
          let '(r, w2, t2) :=
            marshal_rows members cols result' (query_result ++ [element]) w1 in
          (r, w2, t1 ++ t2)
      | exist _ (false, _) _ => (Done (query_result ++ [element]), w1, t1) } }.
Proof.
  unfold next in Hnext. destruct (rows result) as [|r0 rest]; simplify_eq/=. lia.
Qed.

(** [std::vector<T> query( Args&&... args )]. *)
Definition query (args : list (DBQueryParam → DBQueryParam)) : M (list Obj) :=
  '(name, members) ← cls_info_checked;
  let param := expand_param default_query_param args in
  let query_result : list Obj := [] in
  cmd ← compiled (query_tbl_sql name members param);
  if empty cmd then mret query_result
  else
    result ← call_query cmd;
    match result with
    | None => mret query_result
    | Some result =>
        let cols := get_columns result in
        if bool_decide (cols = []) then mret query_result
        else marshal_rows members cols result query_result
    end.

(** [int32_t insert( T const& obj, Args&&... args )]. *)
Definition insert (obj : Obj) (args : list (DBModifyParam → DBModifyParam)) : M Z :=
  '(name, members) ← cls_info_checked;
  let param := expand_param default_modify_param args in
  cmd ← compiled (insert_tbl_sql obj name members param);
  if empty cmd then mret TARO_ERR_INVALID_ARG
  else
    status ← call_excute_cmd cmd;
    if negb (TARO_OK =? status) then mret TARO_ERR_FAILED
    else mret TARO_OK.

(** [Optional<uint64_t> insert_ret_id( T const& obj, Args&&... args )]. *)
Definition insert_ret_id (obj : Obj) (args : list (DBModifyParam → DBModifyParam))
    : M (option Z) :=
  '(name, members) ← cls_info_checked;
  let param := expand_param default_modify_param args in
  cmd ← compiled (insert_tbl_sql obj name members param);
  if empty cmd then mret None
  else
    '(status, id) ← call_exec_cmd_ret_id cmd;
    if negb (TARO_OK =? status) then mret None
    else mret (Some id).

(** [int32_t update( T const& obj, Args&&... args )]. *)
Definition update (obj : Obj) (args : list (DBModifyParam → DBModifyParam)) : M Z :=
  '(name, members) ← cls_info_checked;
  let param := expand_param default_modify_param args in
  cmd ← compiled (update_tbl_sql obj name members param);
  if empty cmd then mret TARO_ERR_INVALID_ARG
  else
    status ← call_excute_cmd cmd;
    if negb (TARO_OK =? status) then mret TARO_ERR_FAILED
    else mret TARO_OK.

(** [int32_t remove( DBCond const& cond = DBCond() )]. *)
Definition remove (cond : DBCond) : M Z :=
  name ← get_class_name;
  cmd ← compiled (remove_tbl_sql name cond);
  if empty cmd then mret TARO_ERR_INVALID_ARG
  else
    status ← call_excute_cmd cmd;
    if negb (TARO_OK =? status) then mret TARO_ERR_FAILED
    else mret TARO_OK.

(** The tail shared by the three aggregates: run the query and read column 0
    of the row under the cursor;
    [result == nullptr || result->get_col_val( 0 ) == nullptr] gives the
    absent value, otherwise the text is converted. *)
Definition read_aggregate {V : Type} (convert : string → V) (sql : string) : M (option V) :=
  result ← call_query sql;
  match result with
  | None => mret None
  | Some result =>
      match get_col_val result 0 with
      | None => mret None
      | Some text => mret (Some (convert text))
      end
  end.

(** [Optional<double> sum( const char* column, DBCond const& cond = DBCond() )]. *)
Definition sum (column : option string) (cond : DBCond) : M (option double) :=
  TARO_ASSERT (STRING_CHECK column);;
  name ← get_class_name;
  sql ← compiled (sum_tbl_sql name column cond);
  TARO_ASSERT (negb (empty sql));;
  read_aggregate atof sql.

(** [Optional<size_t> count( DBCond const& cond = DBCond() )]. *)
Definition count (cond : DBCond) : M (option Z) :=
  name ← get_class_name;
  sql ← compiled (count_tbl_sql name cond);
  TARO_ASSERT (negb (empty sql));;
  read_aggregate (λ text, to_size_t (atol text)) sql.

(** [Optional<double> average( const char* column, DBCond const& cond = DBCond() )]. *)
Definition average (column : option string) (cond : DBCond) : M (option double) :=
  TARO_ASSERT (STRING_CHECK column);;
  name ← get_class_name;
  sql ← compiled (average_tbl_sql name column cond);
  TARO_ASSERT (negb (empty sql));;
  read_aggregate atof sql.

(** ** Notions used to state the properties *)

(** The code's test for "no mapping": [find_class_name] gives the empty
    name. *)
Definition absent (inst : gmap N (TypeMapping Obj)) : bool :=
  empty (find_class_name inst typeid).

(** The state and the calls once the lookup, and the callback where the
    lookup found nothing, are through. *)
Definition registered_world (w : World) : World :=
  if absent (reflector w) then mkWorld (db_cls_reflect (reflector w)) (engine w) else w.

Definition registration_calls (w : World) : list Event :=
  if absent (reflector w) then [EvReflect typeid] else [].

(** The prologue goes through: once the lookup is over the type has a name
    and at least one member. *)
Definition with_members (w : World) : bool :=
  negb (absent (reflector (registered_world w))) &&
  negb (length (get_member_reflectors (reflector (registered_world w)) typeid) =? 0)%nat.

(** The four mutations that report a compile failure as a status code. *)
Inductive Mutation : Type :=
| CreateTable (args : list (CreateTblConstraint → CreateTblConstraint))
| Insert (obj : Obj) (args : list (DBModifyParam → DBModifyParam))
| Update (obj : Obj) (args : list (DBModifyParam → DBModifyParam))
| Remove (cond : DBCond).

Definition run_mutation (m : Mutation) : M Z :=
  match m with
  | CreateTable args => create_table args
  | Insert obj args => insert obj args
  | Update obj args => update obj args
  | Remove cond => remove cond
  end.

(** The text the compiler of a mutation returns, from the state in which the
    lookup leaves the registry. *)
Definition mutation_sql (m : Mutation) (w : World) : string :=
  let name := find_class_name (reflector (registered_world w)) typeid in
  let members := get_member_reflectors (reflector (registered_world w)) typeid in
  match m with
  | CreateTable args => create_tbl_sql name members (expand_param default_constraint args)
  | Insert obj args => insert_tbl_sql obj name members (expand_param default_modify_param args)
  | Update obj args => update_tbl_sql obj name members (expand_param default_modify_param args)
  | Remove cond => remove_tbl_sql name cond
  end.

(** The assertions ahead of the compiler call of a mutation hold. *)
Definition mutation_ready (m : Mutation) (w : World) : bool :=
  match m with
  | Remove _ => negb (absent (reflector (registered_world w)))
  | _ => with_members w
  end.

(** The members of the type and the text of its query, from the state in
    which the lookup leaves the registry. *)
Definition members_of (w : World) : list (ClsMemberReflector Obj) :=
  get_member_reflectors (reflector (registered_world w)) typeid.

Definition query_sql (args : list (DBQueryParam → DBQueryParam)) (w : World) : string :=
  query_tbl_sql (find_class_name (reflector (registered_world w)) typeid) (members_of w)
    (expand_param default_query_param args).

(** The event of a [deserialize] call. *)
Definition deserialize_event (call : string * option string) : Event :=
  EvDeserialize call.1 call.2.

Definition is_deserialize (e : Event) : Prop :=
  match e with
  | EvDeserialize _ _ => True
  | _ => False
  end.

(** Neither a compiler call nor a facade call. *)
Definition neutral (e : Event) : Prop :=
  match e with
  | EvCompile _ | EvFacade _ _ => False
  | _ => True
  end.

(** The first column of the row under the cursor of an answer; absent when
    the answer is the null pointer or when the value is SQL NULL. *)
Definition first_value (answer : option DBQueryResult) : option string :=
  answer ≫= λ result, get_col_val result 0.

(** The part the three aggregates share, from the lookup of the class name
    on: [sql_of] is the compiler call with everything but the name filled in,
    [convert] the conversion of the text read. *)
Definition named_aggregate {V : Type} (convert : string → V) (sql_of : string → string)
    : M (option V) :=
  name ← get_class_name;
  sql ← compiled (sql_of name);
  TARO_ASSERT (negb (empty sql));;
  read_aggregate convert sql.

(** The raw text of column [i] of [row], as [get_col_val] gives it when
    [row] is under the cursor. *)
Definition row_text (row : Row) (i : nat) : option string :=
  get_col_val (mkCursor [] [row]) (to_int32 (Z.of_nat i)).

(** Every column has a member reflector of exactly its name. *)
Definition all_known (members : list (ClsMemberReflector Obj)) (cols : list string) : Prop :=
  Forall (λ col, is_Some (find (λ ptr, String.eqb (get_name ptr) col) members)) cols.

(** The columns ahead of the first one that has no member reflector of its
    name (all of them when every column has one). *)
Fixpoint known_prefix (members : list (ClsMemberReflector Obj)) (cols : list string)
    : list string :=
  match cols with
  | [] => []
  | col :: cols' =>
      match find (λ ptr, String.eqb (get_name ptr) col) members with
      | Some _ => col :: known_prefix members cols'
      | None => []
      end
  end.

(** The object one row stands for: starting from [element], the write of
    every column from index [i] on, by the member of that name. *)
Fixpoint object_from (members : list (ClsMemberReflector Obj)) (row : Row)
    (i : nat) (cols : list string) (element : Obj) : Obj :=
  match cols with
  | [] => element
  | col :: cols' =>
      match find (λ ptr, String.eqb (get_name ptr) col) members with
      | Some ptr => object_from members row (S i) cols' (deserialize ptr (row_text row i) element)
      | None => object_from members row (S i) cols' element
      end
  end.

Definition object_of_row (members : list (ClsMemberReflector Obj)) (cols : list string)
    (row : Row) : Obj :=
  object_from members row 0 cols default_element.

(** One [deserialize] call per column, with the raw text of that column. *)
Fixpoint calls_from (row : Row) (i : nat) (cols : list string)
    : list (string * option string) :=
  match cols with
  | [] => []
  | col :: cols' => (col, row_text row i) :: calls_from row (S i) cols'
  end.

Definition row_calls (cols : list string) (row : Row) : list (string * option string) :=
  calls_from row 0 cols.

(** The rows the loop of [query] visits: the row under the cursor when the
    loop is entered, then every row [next] reaches.  With no row under the
    cursor the first visit reads the null pointer in every column. *)
Definition rows_visited (result : DBQueryResult) : list Row :=
  match rows result with
  | [] => [[]]
  | visited => visited
  end.

End Typed.

(** What a run gives: its outcome, the state it leaves, the calls it made. *)
Definition result_of {A : Type} (run : outcome A * World * list Event) : outcome A := run.1.1.
Definition world_of {A : Type} (run : outcome A * World * list Event) : World := run.1.2.
Definition calls_of {A : Type} (run : outcome A * World * list Event) : list Event := run.2.

(** ** The typed operations taken together *)

Section Survey.
Context {T : Persisted Obj}.

(** Every typed operation of the interface, with its arguments. *)
Inductive TypedOp : Type :=
| OpMutation (m : Mutation)
| OpDropTable
| OpQuery (args : list (DBQueryParam → DBQueryParam))
| OpInsertRetId (obj : Obj) (args : list (DBModifyParam → DBModifyParam))
| OpSum (column : option string) (cond : DBCond)
| OpCount (cond : DBCond)
| OpAverage (column : option string) (cond : DBCond).

(** The call came back to its caller (it did not end in an abort). *)
Definition returned {A : Type} (r : outcome A) : bool :=
  match r with
  | Done _ => true
  | Aborted => false
  end.

(** A run without the value it returned: whether it came back, the state it
    left and the calls it made. *)
Definition summary {A : Type} (run : outcome A * World * list Event)
    : bool * World * list Event :=
  (returned (result_of run), world_of run, calls_of run).

Definition run_op (op : TypedOp) (w : World) : bool * World * list Event :=
  match op with
  | OpMutation m => summary (run_mutation m w)
  | OpDropTable => summary (drop_table w)
  | OpQuery args => summary (query args w)
  | OpInsertRetId obj args => summary (insert_ret_id obj args w)
  | OpSum column cond => summary (sum column cond w)
  | OpCount cond => summary (count cond w)
  | OpAverage column cond => summary (average column cond w)
  end.

(** The operations that need the members of the type, not only its name:
    they run [get_cls_info] and assert [members.size()]. *)
Definition needs_members (op : TypedOp) : bool :=
  match op with
  | OpMutation (Remove _) | OpDropTable | OpSum _ _ | OpCount _ | OpAverage _ _ => false
  | OpMutation _ | OpQuery _ | OpInsertRetId _ _ => true
  end.

(** Not a call of the registration callback. *)
Definition no_reflect (e : Event) : Prop :=
  match e with
  | EvReflect _ => False
  | _ => True
  end.

(** The shape every run of a typed operation has.  Either it stopped at its
    first assertion, before the lookup, having done nothing; or the lookup
    ran: the registry is the one the lookup left, the calls are those of the
    lookup followed by [rest], in which there is no further callback, at most
    one compiler call and at most one facade call, the engine is untouched
    when the facade was not called, and with the type still without a name
    the run did not come back and made no further call. *)
Definition orderly (w : World) (s : bool * World * list Event) : Prop :=
  s = (false, w, []) ∨
  (reflector s.1.2 = reflector (registered_world w) ∧
   ∃ rest : list Event,
     s.2 = registration_calls w ++ rest ∧
     Forall no_reflect rest ∧
     (absent (reflector (registered_world w)) = true → s.1.1 = false ∧ rest = []) ∧
     (length (facade_calls rest) ≤ 1)%nat ∧
     (length (compile_calls rest) ≤ 1)%nat ∧
     (facade_calls rest = [] → engine s.1.2 = engine w)).

End Survey.

End Operations.

(** ** A concrete instance: the [User] type of the end-to-end scenario

    [User { id, name, age }] registered under the table name "User", a stub
    engine that accepts every statement and answers every query with the
    cursor it was loaded with, and small compilers in the shape the design
    gives for them.  The general statements below are exercised on it. *)
Module Demo.

Record User : Type := mkUser { user_id : Z; user_name : string; user_age : Z }.

Definition set_id (text : option string) (u : User) : User :=
  match text with
  | Some s => mkUser (atol s) (user_name u) (user_age u)
  | None => u
  end.

Definition set_name (text : option string) (u : User) : User :=
  match text with
  | Some s => mkUser (user_id u) s (user_age u)
  | None => u
  end.

Definition set_age (text : option string) (u : User) : User :=
  match text with
  | Some s => mkUser (user_id u) (user_name u) (atol s)
  | None => u
  end.

Definition user_members : list (ClsMemberReflector User) :=
  [mkMember "id" set_id; mkMember "name" set_name; mkMember "age" set_age].

(** [User::db_cls_reflect] registers the mapping under the type's identity. *)
#[export] Instance user_type : Persisted User := {|
  typeid := 1%N;
  default_element := mkUser 0 "" 0;
  db_cls_reflect := λ inst, <[1%N := mkMapping "User" user_members]> inst
|}.

(** A type whose callback registers nothing. *)
Definition silent_type : Persisted User := {|
  typeid := 2%N;
  default_element := mkUser 0 "" 0;
  db_cls_reflect := λ inst, inst
|}.

#[export] Instance taro_base : TaroBase := {|
  TARO_OK := 0;
  TARO_ERR_FAILED := -1;
  TARO_ERR_INVALID_ARG := -2;
  STRING_CHECK := λ s, match s with Some s' => negb (empty s') | None => false end;
  double := string;
  atof := λ text, text
|}.

(** The condition compiler: compound nodes fully parenthesised, the empty
    condition compiled to the empty text, a comparison without a column
    name rejected. *)
Fixpoint cond_sql (cond : DBCond) : option string :=
  match cond with
  | CondEmpty => Some ""
  | Comparison column op literal =>
      if empty column then None
      else Some ("(" +:+ column +:+ " " +:+ op +:+ " " +:+ literal +:+ ")")
  | CondAnd l r =>
      l' ← cond_sql l; r' ← cond_sql r; Some ("(" +:+ l' +:+ " AND " +:+ r' +:+ ")")
  | CondOr l r =>
      l' ← cond_sql l; r' ← cond_sql r; Some ("(" +:+ l' +:+ " OR " +:+ r' +:+ ")")
  | CondNot c =>
      c' ← cond_sql c; Some ("(NOT " +:+ c' +:+ ")")
  end.

(** [head ++ " WHERE " ++ condition], without the clause for the empty
    condition and the empty text for a condition that does not compile. *)
Definition with_where (head : string) (cond : DBCond) : string :=
  match cond_sql cond with
  | None => ""
  | Some "" => head
  | Some text => head +:+ " WHERE " +:+ text
  end.

Definition column_list (names : list string) : string :=
  foldr (λ n acc, if empty acc then n else n +:+ ", " +:+ acc) "" names.

Definition or_star (column : option string) : string :=
  match column with
  | Some c => c
  | None => "*"
  end.

#[export] Instance stub : DataBase User := {|
  Engine := option DBQueryResult;
  excute_cmd := λ sql e, (0, e);
  exec_cmd_ret_id := λ sql e, (0, 1, e);
  facade_query := λ sql e, (e, e);
  create_tbl_sql := λ cls_name members constraint,
    if forallb (λ k, existsb (λ m, String.eqb (get_name m) k) members)
               (primary_key_columns constraint)
    then "CREATE TABLE " +:+ cls_name +:+ " (" +:+ column_list (get_name <$> members) +:+ ")"
    else "";
  query_tbl_sql := λ cls_name members param,
    with_where ("SELECT * FROM " +:+ cls_name) (query_condition param);
  insert_tbl_sql := λ obj cls_name members param,
    "INSERT INTO " +:+ cls_name +:+ " (name) VALUES ('" +:+ user_name obj +:+ "')";
  update_tbl_sql := λ obj cls_name members param,
    with_where ("UPDATE " +:+ cls_name +:+ " SET name='" +:+ user_name obj +:+ "'")
               (modify_condition param);
  remove_tbl_sql := λ cls_name cond, with_where ("DELETE FROM " +:+ cls_name) cond;
  average_tbl_sql := λ cls_name col cond,
    with_where ("SELECT AVG(" +:+ or_star col +:+ ") FROM " +:+ cls_name) cond;
  sum_tbl_sql := λ cls_name col cond,
    with_where ("SELECT SUM(" +:+ or_star col +:+ ") FROM " +:+ cls_name) cond;
  count_tbl_sql := λ cls_name cond, with_where ("SELECT COUNT(*) FROM " +:+ cls_name) cond
|}.

(** A type registered under a name but with no member. *)
Definition memberless_type : Persisted User := {|
  typeid := 3%N;
  default_element := mkUser 0 "" 0;
  db_cls_reflect := λ inst, <[3%N := mkMapping "Ghost" []]> inst
|}.

(** An engine that refuses every statement: the compilers of [stub], every
    execution failing with status -1, every query answered with the null
    pointer. *)
Definition refusing : DataBase User := {|
  Engine := ();
  excute_cmd := λ sql e, (-1, e);
  exec_cmd_ret_id := λ sql e, (-1, 0, e);
  facade_query := λ sql e, (None, e);
  create_tbl_sql := create_tbl_sql (DataBase := stub);
  query_tbl_sql := query_tbl_sql (DataBase := stub);
  insert_tbl_sql := insert_tbl_sql (DataBase := stub);
  update_tbl_sql := update_tbl_sql (DataBase := stub);
  remove_tbl_sql := remove_tbl_sql (DataBase := stub);
  average_tbl_sql := average_tbl_sql (DataBase := stub);
  sum_tbl_sql := sum_tbl_sql (DataBase := stub);
  count_tbl_sql := count_tbl_sql (DataBase := stub)
|}.

(** A fresh process on the refusing engine. *)
Definition refused : World (db := refusing) := mkWorld (db := refusing) ∅ ().

(** A condition the compilers reject. *)
Definition bad_cond : DBCond := Comparison "" "=" "1".

(** A fresh process (no type registered yet) whose engine answers queries
    with [answer]. *)
Definition fresh (answer : option DBQueryResult) : World := mkWorld ∅ answer.

(** Two stored users, the second without a name. *)
Definition two_users : DBQueryResult :=
  mkCursor ["id"; "name"; "age"]
    [[Some "1"; Some "Alice"; Some "30"]; [Some "2"; None; Some "41"]].

(** A result with its columns but not a single row. *)
Definition no_rows : DBQueryResult := mkCursor ["id"; "name"; "age"] [].

(** A result that reports no columns. *)
Definition no_columns : DBQueryResult := mkCursor [] [[Some "1"]].

(** A result with a column the mapping does not know. *)
Definition drifted : DBQueryResult :=
  mkCursor ["id"; "email"] [[Some "1"; Some "alice@example.org"]].

(** One stored user without a name. *)
Definition nameless : DBQueryResult :=
  mkCursor ["id"; "name"; "age"] [[Some "2"; None; Some "41"]].

(** One stored user without a name, in a table that has grown a column the
    mapping does not know. *)
Definition nameless_drifted : DBQueryResult :=
  mkCursor ["id"; "email"; "name"] [[Some "1"; Some "a@b"; None]].

(** A count too large for [long]. *)
Definition huge : string := "99999999999999999999".

(** A codec for integers. *)
Definition z_of_text (text : string) : option Z := Some (atol text).

(** The one-row answers of the aggregates. *)
Definition scalar (text : option string) : DBQueryResult := mkCursor ["value"] [[text]].

End Demo.

(** ** Properties *)

Ltac unfold_calls :=
  unfold mbind, M_bind, mret, M_ret, TARO_ASSERT, assertion_failed, compiled,
    call_excute_cmd, call_exec_cmd_ret_id, call_query, inst_find_class_name,
    inst_get_member_reflectors, call_db_cls_reflect, call_deserialize in *.

Section Properties.
Context {taro : TaroBase} {Obj : Type} {db : DataBase Obj} {T : Persisted Obj}.

Implicit Types (w : World) (members : list (ClsMemberReflector Obj))
  (cols : list string) (result : DBQueryResult) (t : list Event).

(** *** The lookup with lazy registration *)

Lemma get_class_name_run w :
  get_class_name w =
    (if absent (reflector (registered_world w)) then Aborted
     else Done (find_class_name (reflector (registered_world w)) typeid),
     registered_world w, registration_calls w).
Proof.
  unfold get_class_name, registered_world, registration_calls, absent.
  unfold_calls.
  destruct (empty (find_class_name (reflector w) typeid)) eqn:Hfirst; simpl.
  - destruct (empty (find_class_name (db_cls_reflect (reflector w)) typeid)); reflexivity.
  - rewrite Hfirst. reflexivity.
Qed.

Lemma get_cls_info_run w :
  get_cls_info w =
    (if absent (reflector (registered_world w)) then Aborted
     else Done (find_class_name (reflector (registered_world w)) typeid,
                get_member_reflectors (reflector (registered_world w)) typeid),
     registered_world w, registration_calls w).
Proof.
  unfold get_cls_info, registered_world, registration_calls, absent.
  unfold_calls.
  destruct (empty (find_class_name (reflector w) typeid)) eqn:Hfirst; simpl.
  - destruct (empty (find_class_name (db_cls_reflect (reflector w)) typeid)); reflexivity.
  - rewrite Hfirst. reflexivity.
Qed.

Lemma facade_calls_app t1 t2 :
  facade_calls (t1 ++ t2) = facade_calls t1 ++ facade_calls t2.
Proof. apply omap_app. Qed.

Lemma deserialize_calls_app t1 t2 :
  deserialize_calls (t1 ++ t2) = deserialize_calls t1 ++ deserialize_calls t2.
Proof. apply omap_app. Qed.

Lemma engine_registered_world w : engine (registered_world w) = engine w.
Proof. unfold registered_world. destruct (absent (reflector w)); reflexivity. Qed.

Lemma facade_calls_registration w : facade_calls (registration_calls w) = [].
Proof. unfold registration_calls. destruct (absent (reflector w)); reflexivity. Qed.

Lemma registration_calls_reflect w e :
  e ∈ registration_calls w → e = EvReflect typeid.
Proof.
  unfold registration_calls. destruct (absent (reflector w)); intros Hin.
  - apply list_elem_of_singleton in Hin. exact Hin.
  - apply not_elem_of_nil in Hin. destruct Hin.
Qed.

Lemma cls_info_checked_run w :
  cls_info_checked w =
    (if with_members w
     then Done (find_class_name (reflector (registered_world w)) typeid,
                get_member_reflectors (reflector (registered_world w)) typeid)
     else Aborted,
     registered_world w, registration_calls w).
Proof.
  unfold cls_info_checked, with_members. unfold mbind at 1, M_bind at 1.
  rewrite get_cls_info_run. unfold absent.
  destruct (empty (find_class_name _ _)) eqn:Hname; simpl; [reflexivity|].
  unfold_calls. rewrite Hname. simpl.
  destruct (length _ =? 0)%nat; simpl; rewrite ?app_nil_r; reflexivity.
Qed.

(** *** The mutations *)

(** The common tail of the mutations: the compiled text is checked, then
    executed. *)
Lemma compile_then_execute_run (cmd : string) w :
  (cmd' ← compiled cmd;
   if empty cmd' then mret TARO_ERR_INVALID_ARG
   else
     status ← call_excute_cmd cmd';
     if negb (TARO_OK =? status) then mret TARO_ERR_FAILED else mret TARO_OK) w =
  if empty cmd then (Done TARO_ERR_INVALID_ARG, w, [EvCompile cmd])
  else (Done (if negb (TARO_OK =? (excute_cmd cmd (engine w)).1)
              then TARO_ERR_FAILED else TARO_OK),
        mkWorld (reflector w) (excute_cmd cmd (engine w)).2,
        [EvCompile cmd; EvFacade ExcuteCmd cmd]).
Proof.
  unfold_calls. destruct (empty cmd); [reflexivity|].
  destruct (excute_cmd cmd (engine w)) as [status e]; simpl.
  destruct (negb (TARO_OK =? status)); reflexivity.
Qed.

Lemma run_mutation_run (m : Mutation) w :
  run_mutation m w =
    if mutation_ready m w then
      let cmd := mutation_sql m w in
      let w1 := registered_world w in
      if empty cmd
      then (Done TARO_ERR_INVALID_ARG, w1, registration_calls w ++ [EvCompile cmd])
      else (Done (if negb (TARO_OK =? (excute_cmd cmd (engine w1)).1)
                  then TARO_ERR_FAILED else TARO_OK),
            mkWorld (reflector w1) (excute_cmd cmd (engine w1)).2,
            registration_calls w ++ [EvCompile cmd; EvFacade ExcuteCmd cmd])
    else (Aborted, registered_world w, registration_calls w).
Proof.
  destruct m as [args|obj args|obj args|cond]; simpl;
    [unfold create_table|unfold insert|unfold update|unfold remove];
    unfold mbind at 1, M_bind at 1;
    rewrite ?cls_info_checked_run, ?get_class_name_run;
    try (destruct (with_members w); [|reflexivity]);
    try (destruct (absent (reflector (registered_world w))); [reflexivity|]);
    simpl; rewrite compile_then_execute_run;
    unfold mutation_sql; simpl;
    match goal with |- context [empty ?cmd] => destruct (empty cmd) end; reflexivity.
Qed.

(** C1.  Whenever a typed mutation ([create_table], [insert], [update],
    [remove]) gets the empty string back from its [*_tbl_sql] compiler, it
    returns [TARO_ERR_INVALID_ARG], hands no SQL text to the execution facade
    and leaves the engine as it was. *)
Theorem empty_sql_is_invalid_arg (m : Mutation) w :
  EvCompile "" ∈ calls_of (run_mutation m w) →
  result_of (run_mutation m w) = Done TARO_ERR_INVALID_ARG ∧
  facade_calls (calls_of (run_mutation m w)) = [] ∧
  engine (world_of (run_mutation m w)) = engine w.
Proof.
  rewrite run_mutation_run. unfold result_of, world_of, calls_of.
  destruct (mutation_ready m w); simpl.
  - destruct (empty (mutation_sql m w)) eqn:Hcmd; simpl.
    + intros _. split; [reflexivity|]. split.
      * rewrite facade_calls_app, facade_calls_registration. reflexivity.
      * apply engine_registered_world.
    + intros Hin. apply elem_of_app in Hin as [Hin|Hin].
      * apply registration_calls_reflect in Hin. discriminate.
      * apply elem_of_cons in Hin as [Heq|Hin].
        { injection Heq as Heq. rewrite <- Heq in Hcmd. discriminate. }
        apply list_elem_of_singleton in Hin. discriminate.
  - intros Hin. apply registration_calls_reflect in Hin. discriminate.
Qed.

(** *** Marshalling of the rows *)

Lemma get_col_val_visited result (i : nat) :
  get_col_val result (to_int32 (Z.of_nat i)) = row_text (hd [] (rows_visited result)) i.
Proof.
  unfold row_text, rows_visited, get_col_val.
  destruct (rows result) as [|row rest]; simpl; [|reflexivity].
  destruct (to_int32 (Z.of_nat i) <? 0); [reflexivity|].
  destruct (Z.to_nat (to_int32 (Z.of_nat i))); reflexivity.
Qed.

Lemma find_by_name members (col : string) (ptr : ClsMemberReflector Obj) :
  find (λ ptr, String.eqb (get_name ptr) col) members = Some ptr → get_name ptr = col.
Proof.
  intros Hfind. apply find_some in Hfind as [_ Heq]. apply String.eqb_eq. exact Heq.
Qed.

Lemma marshal_columns_known members result (i : nat) cols (element : Obj) w :
  all_known members cols →
  marshal_columns members result i cols element w =
    (Done (object_from members (hd [] (rows_visited result)) i cols element), w,
     deserialize_event <$> calls_from (hd [] (rows_visited result)) i cols).
Proof.
  revert i element. induction cols as [|col cols IH]; intros i element Hknown.
  - reflexivity.
  - apply Forall_cons in Hknown as [[ptr Hptr] Hknown]. simpl.
    unfold mbind, M_bind, marshal_column. rewrite Hptr.
    unfold call_deserialize. rewrite IH by exact Hknown.
    rewrite get_col_val_visited, (find_by_name _ _ _ Hptr). reflexivity.
Qed.

Lemma marshal_columns_unknown members result (i : nat) cols (element : Obj) w :
  ¬ all_known members cols →
  result_of (marshal_columns members result i cols element w) = Aborted.
Proof.
  revert i element. induction cols as [|col cols IH]; intros i element Hunknown.
  - destruct Hunknown. apply Forall_nil_2.
  - simpl. unfold mbind, M_bind, marshal_column.
    destruct (find _ members) as [ptr|] eqn:Hptr; [|reflexivity].
    unfold call_deserialize.
    assert (Hrest : ¬ all_known members cols).
    { intros Hknown. apply Hunknown. apply Forall_cons. split; [eauto|exact Hknown]. }
    specialize (IH (S i) (deserialize ptr (get_col_val result (to_int32 (Z.of_nat i))) element) Hrest).
    unfold result_of in *.
    destruct (marshal_columns _ _ _ _ _ _) as [[r w2] t2]. simpl in *. exact IH.
Qed.

Lemma marshal_columns_calls members result (i : nat) cols (element : Obj) w :
  world_of (marshal_columns members result i cols element w) = w ∧
  Forall is_deserialize (calls_of (marshal_columns members result i cols element w)).
Proof.
  revert i element. induction cols as [|col cols IH]; intros i element.
  - split; [reflexivity|apply Forall_nil_2].
  - simpl. unfold mbind, M_bind, marshal_column.
    destruct (find _ members) as [ptr|]; [|split; [reflexivity|apply Forall_nil_2]].
    unfold call_deserialize.
    specialize (IH (S i) (deserialize ptr (get_col_val result (to_int32 (Z.of_nat i))) element)).
    unfold world_of, calls_of in *.
    destruct (marshal_columns _ _ _ _ _ _) as [[r w2] t2]. simpl in *.
    destruct IH as [Hw Ht]. split; [exact Hw|]. apply Forall_cons. split; [exact I|exact Ht].
Qed.

Lemma marshal_rows_step members cols result (query_result : list Obj) w :
  marshal_rows members cols result query_result w =
    match marshal_columns members result 0 cols default_element w with
    | (Aborted, w1, t1) => (Aborted, w1, t1)
    | (Done element, w1, t1) =>
        if (next result).1
        then let '(r, w2, t2) :=
               marshal_rows members cols (next result).2 (query_result ++ [element]) w1 in
             (r, w2, t1 ++ t2)
        else (Done (query_result ++ [element]), w1, t1)
    end.
Proof.
  simp marshal_rows.
  destruct (marshal_columns members result 0 cols default_element w) as [[[element|] w1] t1];
    simpl; [|reflexivity].
  destruct (next result) as [[|] result']; reflexivity.
Qed.

Lemma marshal_rows_known members cols result (query_result : list Obj) w :
  all_known members cols →
  marshal_rows members cols result query_result w =
    (Done (query_result ++ (object_of_row members cols <$> rows_visited result)), w,
     deserialize_event <$> (rows_visited result ≫= row_calls cols)).
Proof.
  intros Hknown. remember (rows result) as pending eqn:Hrows.
  revert result query_result Hrows.
  induction pending as [|row pending IH]; intros result query_result Hrows;
    rewrite marshal_rows_step, marshal_columns_known by exact Hknown;
    unfold next, rows_visited; rewrite <- Hrows; simpl.
  - rewrite app_nil_r. reflexivity.
  - destruct pending as [|row' pending'].
    + simpl. rewrite app_nil_r. reflexivity.
    + rewrite bool_decide_eq_true_2 by discriminate.
      rewrite (IH (mkCursor (columns result) (row' :: pending'))) by reflexivity.
      unfold rows_visited. simpl. rewrite <- app_assoc, !fmap_app. reflexivity.
Qed.

Lemma marshal_rows_unknown members cols result (query_result : list Obj) w :
  ¬ all_known members cols →
  result_of (marshal_rows members cols result query_result w) = Aborted.
Proof.
  intros Hunknown. rewrite marshal_rows_step.
  pose proof (marshal_columns_unknown members result 0 cols default_element w Hunknown) as Hrow.
  unfold result_of in *.
  destruct (marshal_columns _ _ _ _ _ _) as [[[element|] w1] t1]; simpl in *;
    [discriminate|reflexivity].
Qed.

Lemma marshal_rows_calls members cols result (query_result : list Obj) w :
  world_of (marshal_rows members cols result query_result w) = w ∧
  Forall is_deserialize (calls_of (marshal_rows members cols result query_result w)).
Proof.
  destruct (decide (all_known members cols)) as [Hknown|Hunknown].
  - rewrite marshal_rows_known by exact Hknown. split; [reflexivity|].
    unfold calls_of. simpl. apply Forall_fmap, Forall_true. intros call. exact I.
  - rewrite marshal_rows_step.
    pose proof (marshal_columns_unknown members result 0 cols default_element w Hunknown) as Hrow.
    pose proof (marshal_columns_calls members result 0 cols default_element w) as Hcalls.
    unfold result_of, world_of, calls_of in *.
    destruct (marshal_columns _ _ _ _ _ _) as [[[element|] w1] t1]; simpl in *;
      [discriminate|exact Hcalls].
Qed.

(** *** The typed query *)

Lemma query_run (args : list (DBQueryParam → DBQueryParam)) w :
  query args w =
    if with_members w then
      let w1 := registered_world w in
      let cmd := query_sql args w in
      if empty cmd then (Done [], w1, registration_calls w ++ [EvCompile cmd])
      else
        let answer := (facade_query cmd (engine w1)).1 in
        let w2 := mkWorld (reflector w1) (facade_query cmd (engine w1)).2 in
        let asked := [EvCompile cmd; EvFacade Query cmd; EvAnswer answer] in
        match answer with
        | None => (Done [], w2, registration_calls w ++ asked)
        | Some result =>
            if bool_decide (get_columns result = [])
            then (Done [], w2, registration_calls w ++ asked)
            else
              let run := marshal_rows (members_of w) (get_columns result) result [] w2 in
              (result_of run, world_of run, registration_calls w ++ asked ++ calls_of run)
        end
    else (Aborted, registered_world w, registration_calls w).
Proof.
  unfold query. unfold mbind at 1, M_bind at 1. rewrite cls_info_checked_run.
  destruct (with_members w); [|reflexivity]. simpl.
  fold (members_of w). fold (query_sql args w).
  unfold_calls. destruct (empty (query_sql args w)); [reflexivity|].
  destruct (facade_query _ _) as [[result|] e]; simpl; [|reflexivity].
  destruct (bool_decide (get_columns result = [])); simpl; [reflexivity|].
  unfold result_of, world_of, calls_of.
  destruct (marshal_rows _ _ _ _ _) as [[r w3] t3]. reflexivity.
Qed.

Lemma deserialize_calls_registration w : deserialize_calls (registration_calls w) = [].
Proof. unfold registration_calls. destruct (absent (reflector w)); reflexivity. Qed.

Lemma deserialize_calls_events (calls : list (string * option string)) :
  deserialize_calls (deserialize_event <$> calls) = calls.
Proof.
  induction calls as [|[member text] calls IH]; [reflexivity|].
  change (deserialize_event <$> (member, text) :: calls)
    with ([EvDeserialize member text] ++ (deserialize_event <$> calls)).
  rewrite deserialize_calls_app, IH. reflexivity.
Qed.

Lemma answer_not_deserialize t (answer : option DBQueryResult) :
  Forall is_deserialize t → EvAnswer answer ∉ t.
Proof.
  intros Hall Hin. rewrite Forall_forall in Hall. exact (Hall _ Hin).
Qed.

(** A run of [query] in which the facade answered with the cursor [result]:
    the prologue went through, the compiler returned text, and what remains is
    the test on the columns and the loop over the rows. *)
Lemma query_answered (args : list (DBQueryParam → DBQueryParam)) w result :
  EvAnswer (Some result) ∈ calls_of (query args w) →
  ∃ w2 : World,
    let asked := [EvCompile (query_sql args w); EvFacade Query (query_sql args w);
                  EvAnswer (Some result)] in
    let run := marshal_rows (members_of w) (get_columns result) result [] w2 in
    query args w =
      if bool_decide (get_columns result = [])
      then (Done [], w2, registration_calls w ++ asked)
      else (result_of run, world_of run, registration_calls w ++ asked ++ calls_of run).
Proof.
  rewrite query_run. unfold calls_of at 1.
  destruct (with_members w); simpl.
  2: { intros Hin. apply registration_calls_reflect in Hin. discriminate. }
  destruct (empty (query_sql args w)); simpl.
  { intros Hin. apply elem_of_app in Hin as [Hin|Hin].
    - apply registration_calls_reflect in Hin. discriminate.
    - apply list_elem_of_singleton in Hin. discriminate. }
  set (w2 := mkWorld _ _).
  destruct (facade_query _ _).1 as [answer|] eqn:Hanswer; simpl.
  - assert (Hsame : EvAnswer (Some result) ∈
        registration_calls w ++ [EvCompile (query_sql args w);
          EvFacade Query (query_sql args w); EvAnswer (Some answer)] →
        answer = result).
    { intros Hin. apply elem_of_app in Hin as [Hin|Hin].
      - apply registration_calls_reflect in Hin. discriminate.
      - repeat (apply elem_of_cons in Hin as [Hin|Hin]; [try discriminate|]).
        + injection Hin as Hin. symmetry. exact Hin.
        + apply not_elem_of_nil in Hin. destruct Hin. }
    destruct (bool_decide (get_columns answer = [])) eqn:Hcols; simpl.
    + intros Hin. apply Hsame in Hin. subst answer. exists w2. rewrite Hcols. reflexivity.
    + intros Hin.
      assert (answer = result) as ->.
      { apply elem_of_app in Hin as [Hin|Hin].
        - apply registration_calls_reflect in Hin. discriminate.
        - repeat (apply elem_of_cons in Hin as [Hin|Hin]; [try discriminate|]).
          + injection Hin as Hin. symmetry. exact Hin.
          + exfalso. revert Hin. apply answer_not_deserialize, marshal_rows_calls. }
      exists w2. rewrite Hcols. reflexivity.
  - intros Hin. apply elem_of_app in Hin as [Hin|Hin].
    + apply registration_calls_reflect in Hin. discriminate.
    + repeat (apply elem_of_cons in Hin as [Hin|Hin]; [discriminate|]).
      apply not_elem_of_nil in Hin. destruct Hin.
Qed.

(** C10.  When the cursor the engine returned for a typed query reports an
    empty list of column names, [query] returns the empty sequence: it does
    not abort and calls no [deserialize], so no object is marshalled. *)
Theorem no_columns_no_objects (args : list (DBQueryParam → DBQueryParam)) w result :
  EvAnswer (Some result) ∈ calls_of (query args w) →
  get_columns result = [] →
  result_of (query args w) = Done [] ∧
  deserialize_calls (calls_of (query args w)) = [].
Proof.
  intros Hanswered Hcols. apply query_answered in Hanswered as [w2 Hrun].
  simpl in Hrun. rewrite Hrun, bool_decide_eq_true_2 by exact Hcols.
  split; [reflexivity|]. unfold calls_of. simpl.
  rewrite deserialize_calls_app, deserialize_calls_registration. reflexivity.
Qed.

(** C2.  During the marshalling of [query], a returned column name for which
    the target type has no member reflector of exactly that name is fatal:
    the run ends in the abort of the failed assertion, not in a value (the
    column is not skipped, no error is returned to the caller). *)
Theorem unknown_column_aborts (args : list (DBQueryParam → DBQueryParam)) w result
    (col : string) :
  EvAnswer (Some result) ∈ calls_of (query args w) →
  col ∈ get_columns result →
  find (λ ptr, String.eqb (get_name ptr) col) (members_of w) = None →
  result_of (query args w) = Aborted.
Proof.
  intros Hanswered Hcol Hnone. apply query_answered in Hanswered as [w2 Hrun].
  simpl in Hrun. rewrite Hrun. rewrite bool_decide_eq_false_2.
  2: { intros Hnil. rewrite Hnil in Hcol. apply not_elem_of_nil in Hcol. exact Hcol. }
  unfold result_of at 1. simpl. apply marshal_rows_unknown.
  intros Hknown. unfold all_known in Hknown. rewrite Forall_forall in Hknown.
  destruct (Hknown col Hcol) as [ptr Hptr]. congruence.
Qed.

Lemma rows_visited_nonempty result : rows result ≠ [] → rows_visited result = rows result.
Proof. unfold rows_visited. destruct (rows result); [intros Hne; destruct Hne|]; reflexivity. Qed.

(** C3, amended.  For a cursor that holds at least one row, reports at least
    one column and only columns the type has members for, [query] returns
    exactly one object per row, in cursor order: the sequence of the objects
    the rows stand for, nothing dropped, merged or moved. *)
Theorem one_object_per_row (args : list (DBQueryParam → DBQueryParam)) w result :
  EvAnswer (Some result) ∈ calls_of (query args w) →
  get_columns result ≠ [] →
  all_known (members_of w) (get_columns result) →
  rows result ≠ [] →
  result_of (query args w) =
    Done (object_of_row (members_of w) (get_columns result) <$> rows result).
Proof.
  intros Hanswered Hcols Hknown Hrows. apply query_answered in Hanswered as [w2 Hrun].
  simpl in Hrun. rewrite Hrun, bool_decide_eq_false_2 by exact Hcols.
  unfold result_of at 1. simpl. rewrite marshal_rows_known by exact Hknown.
  unfold result_of. simpl. rewrite rows_visited_nonempty by exact Hrows. reflexivity.
Qed.

Lemma calls_from_lookup (row : Row) (j i : nat) cols (col : string) :
  cols !! i = Some col → (col, row_text row (j + i)) ∈ calls_from row j cols.
Proof.
  revert j i. induction cols as [|col' cols IH]; intros j i Hcol; [discriminate|].
  destruct i as [|i]; simpl in *.
  - injection Hcol as ->. rewrite Nat.add_0_r. apply list_elem_of_here.
  - apply list_elem_of_further. replace (j + S i)%nat with (S j + i)%nat by lia.
    apply IH. exact Hcol.
Qed.

Lemma no_columns_no_calls (pending : list Row) : pending ≫= row_calls [] = [].
Proof. induction pending as [|row pending IH]; [reflexivity|]. simpl. exact IH. Qed.

Lemma marshal_columns_prefix members result (i : nat) cols (element : Obj) w :
  ¬ all_known members cols →
  marshal_columns members result i cols element w =
    (Aborted, w,
     deserialize_event <$>
       calls_from (hd [] (rows_visited result)) i (known_prefix members cols)).
Proof.
  revert i element. induction cols as [|col cols IH]; intros i element Hunknown.
  - destruct Hunknown. apply Forall_nil_2.
  - simpl. unfold mbind, M_bind, marshal_column.
    destruct (find _ members) as [ptr|] eqn:Hptr; [|reflexivity].
    unfold call_deserialize.
    assert (Hrest : ¬ all_known members cols).
    { intros Hknown. apply Hunknown. apply Forall_cons. split; [eauto|exact Hknown]. }
    rewrite IH by exact Hrest.
    rewrite get_col_val_visited, (find_by_name _ _ _ Hptr). reflexivity.
Qed.

(** C4, amended.  The marshalling loop of [query] makes no NULL test of its
    own; a column it reaches gets one [deserialize] call of the member of its
    name with the raw value of the column, the null pointer for SQL NULL.
    For a cursor with at least one row: when every returned column has a
    member reflector, every column of every row is reached, so the calls are
    exactly one per column per row, in order, and every column whose value is
    SQL NULL gets its call with the null pointer; when some column has none,
    the run aborts in the first row, and the calls are exactly those of the
    columns of that row ahead of the first such column, NULL or not.  What a
    NULL does to the field is left to [deserialize]. *)
Theorem null_reaches_deserialize (args : list (DBQueryParam → DBQueryParam)) w result :
  EvAnswer (Some result) ∈ calls_of (query args w) →
  rows result ≠ [] →
  (all_known (members_of w) (get_columns result) →
     deserialize_calls (calls_of (query args w)) =
       rows result ≫= row_calls (get_columns result) ∧
     ∀ (row : Row) (i : nat) (col : string),
       row ∈ rows result → get_columns result !! i = Some col → row_text row i = None →
       (col, None) ∈ deserialize_calls (calls_of (query args w))) ∧
  (¬ all_known (members_of w) (get_columns result) →
     result_of (query args w) = Aborted ∧
     deserialize_calls (calls_of (query args w)) =
       row_calls (known_prefix (members_of w) (get_columns result)) (hd [] (rows result)) ∧
     ∀ (i : nat) (col : string),
       known_prefix (members_of w) (get_columns result) !! i = Some col →
       row_text (hd [] (rows result)) i = None →
       (col, None) ∈ deserialize_calls (calls_of (query args w))).
Proof.
  intros Hanswered Hrows.
  apply query_answered in Hanswered as [w2 Hrun]. simpl in Hrun.
  split.
  - intros Hknown.
    assert (Hcalls : deserialize_calls (calls_of (query args w)) =
                     rows result ≫= row_calls (get_columns result)).
    { rewrite Hrun. destruct (bool_decide (get_columns result = [])) eqn:Hcols.
      - apply bool_decide_eq_true in Hcols. rewrite Hcols, no_columns_no_calls.
        unfold calls_of. simpl.
        rewrite deserialize_calls_app, deserialize_calls_registration. reflexivity.
      - unfold calls_of at 1. simpl. rewrite marshal_rows_known by exact Hknown.
        unfold calls_of. simpl.
        rewrite deserialize_calls_app, deserialize_calls_registration. simpl.
        change (deserialize_calls (?a :: ?b :: ?c :: ?t)) with (deserialize_calls t).
        rewrite deserialize_calls_events, rows_visited_nonempty by exact Hrows.
        reflexivity. }
    split; [exact Hcalls|].
    intros row i col Hrow Hcol Hnull. rewrite Hcalls.
    apply list_elem_of_bind. exists row. split; [|exact Hrow].
    rewrite <- Hnull. apply (calls_from_lookup row 0 i). exact Hcol.
  - intros Hunknown.
    assert (Hcols : bool_decide (get_columns result = []) = false).
    { apply bool_decide_eq_false_2. intros Hnil. apply Hunknown.
      rewrite Hnil. apply Forall_nil_2. }
    rewrite Hcols, marshal_rows_step, marshal_columns_prefix in Hrun by exact Hunknown.
    rewrite rows_visited_nonempty in Hrun by exact Hrows.
    unfold result_of, world_of, calls_of in Hrun. simpl in Hrun.
    assert (Hcalls : deserialize_calls (calls_of (query args w)) =
              row_calls (known_prefix (members_of w) (get_columns result))
                (hd [] (rows result))).
    { rewrite Hrun. unfold calls_of. simpl.
      rewrite deserialize_calls_app, deserialize_calls_registration. simpl.
      change (deserialize_calls (?a :: ?b :: ?c :: ?t)) with (deserialize_calls t).
      rewrite deserialize_calls_events. reflexivity. }
    split; [rewrite Hrun; reflexivity|]. split; [exact Hcalls|].
    intros i col Hcol Hnull. rewrite Hcalls, <- Hnull.
    apply (calls_from_lookup (hd [] (rows result)) 0 i). exact Hcol.
Qed.

(** *** Reading a column of the cursor *)

(** C5.  For every column index and every target type, [get] returns the
    absent value when [get_col_val] gives the null pointer, and hands nothing
    to the codec [str_to_value]: no conversion is attempted, so none can
    fail. *)
Theorem get_null_is_absent {V : Type} (str_to_value : string → option V)
    result (col : Z) :
  get_col_val result col = None →
  get str_to_value result col = (None, []).
Proof. intros Hnull. unfold get. rewrite Hnull. reflexivity. Qed.

(** *** The lookup, as the operations use it *)

(** C6.  Both lookups of the type information, [get_cls_info] and
    [get_class_name], consult the registry first.  When the name is found
    they return it (with the members) and neither call the registration
    callback nor touch the state.  Only when it is not found do they call
    [T::db_cls_reflect], exactly once, and look the name up again in the
    registry the callback left: a name still missing is the abort of the
    failed assertion, a name now present is returned. *)
Theorem lookup_then_register_once w :
  let inst := reflector w in
  let inst' := db_cls_reflect inst in
  (absent inst = false →
     get_cls_info w =
       (Done (find_class_name inst typeid, get_member_reflectors inst typeid), w, []) ∧
     get_class_name w = (Done (find_class_name inst typeid), w, [])) ∧
  (absent inst = true →
     calls_of (get_cls_info w) = [EvReflect typeid] ∧
     calls_of (get_class_name w) = [EvReflect typeid] ∧
     world_of (get_cls_info w) = mkWorld inst' (engine w) ∧
     world_of (get_class_name w) = mkWorld inst' (engine w) ∧
     (absent inst' = true →
        result_of (get_cls_info w) = Aborted ∧ result_of (get_class_name w) = Aborted) ∧
     (absent inst' = false →
        result_of (get_cls_info w) =
          Done (find_class_name inst' typeid, get_member_reflectors inst' typeid) ∧
        result_of (get_class_name w) = Done (find_class_name inst' typeid))).
Proof.
  intros inst inst'. subst inst inst'.
  rewrite get_cls_info_run, get_class_name_run.
  unfold registered_world, registration_calls, result_of, world_of, calls_of.
  split; intros Hfirst; rewrite Hfirst; simpl.
  - rewrite Hfirst. split; reflexivity.
  - repeat (split; [reflexivity|]).
    split; intros Hsecond; rewrite Hsecond; split; reflexivity.
Qed.

(** *** The aggregates *)

Lemma aggregate_tail_run {V : Type} (convert : string → V) (sql : string) w :
  (sql' ← compiled sql;
   TARO_ASSERT (negb (empty sql'));;
   read_aggregate convert sql') w =
  if empty sql then (Aborted, w, [EvCompile sql])
  else
    let answer := (facade_query sql (engine w)).1 in
    (Done (convert <$> first_value answer),
     mkWorld (reflector w) (facade_query sql (engine w)).2,
     [EvCompile sql; EvFacade Query sql; EvAnswer answer]).
Proof.
  unfold read_aggregate. unfold_calls. destruct (empty sql); simpl; [reflexivity|].
  destruct (facade_query sql (engine w)) as [[result|] e]; simpl; [|reflexivity].
  destruct (get_col_val result 0); reflexivity.
Qed.

(** What an aggregate does once its column argument is accepted, given the
    text [sql_of name] its compiler returns for the class name. *)
Lemma named_aggregate_run {V : Type} (convert : string → V) (sql_of : string → string) w :
  named_aggregate convert sql_of w =
  let w1 := registered_world w in
  let sql := sql_of (find_class_name (reflector w1) typeid) in
  if absent (reflector w1) then (Aborted, w1, registration_calls w)
  else if empty sql then (Aborted, w1, registration_calls w ++ [EvCompile sql])
  else
    let answer := (facade_query sql (engine w1)).1 in
    (Done (convert <$> first_value answer),
     mkWorld (reflector w1) (facade_query sql (engine w1)).2,
     registration_calls w ++ [EvCompile sql; EvFacade Query sql; EvAnswer answer]).
Proof.
  unfold named_aggregate. unfold mbind at 1, M_bind at 1. rewrite get_class_name_run.
  destruct (absent (reflector (registered_world w))); simpl; [reflexivity|].
  rewrite aggregate_tail_run.
  destruct (empty (sql_of _)); reflexivity.
Qed.

Lemma named_aggregate_answered {V : Type} (convert : string → V) (sql_of : string → string)
    w (answer : option DBQueryResult) :
  EvAnswer answer ∈ calls_of (named_aggregate convert sql_of w) →
  result_of (named_aggregate convert sql_of w) = Done (convert <$> first_value answer).
Proof.
  rewrite named_aggregate_run. simpl. unfold result_of, calls_of.
  destruct (absent _); simpl.
  { intros Hin. apply registration_calls_reflect in Hin. discriminate. }
  destruct (empty _); simpl; intros Hin; apply elem_of_app in Hin as [Hin|Hin];
    try (apply registration_calls_reflect in Hin; discriminate);
    repeat (apply elem_of_cons in Hin as [Hin|Hin]; [try discriminate|]);
    try (apply not_elem_of_nil in Hin; destruct Hin).
  injection Hin as ->. reflexivity.
Qed.

Lemma named_aggregate_empty_sql {V : Type} (convert : string → V) (sql_of : string → string) w :
  EvCompile "" ∈ calls_of (named_aggregate convert sql_of w) →
  result_of (named_aggregate convert sql_of w) = Aborted ∧
  facade_calls (calls_of (named_aggregate convert sql_of w)) = [].
Proof.
  rewrite named_aggregate_run. simpl. unfold result_of, calls_of.
  destruct (absent _); simpl.
  { intros Hin. apply registration_calls_reflect in Hin. discriminate. }
  destruct (empty _) eqn:Hsql; simpl; intros Hin.
  - split; [reflexivity|].
    rewrite facade_calls_app, facade_calls_registration. reflexivity.
  - apply elem_of_app in Hin as [Hin|Hin].
    { apply registration_calls_reflect in Hin. discriminate. }
    repeat (apply elem_of_cons in Hin as [Hin|Hin]; [try discriminate|]).
    + injection Hin as Hin. rewrite <- Hin in Hsql. discriminate.
    + apply not_elem_of_nil in Hin. destruct Hin.
Qed.

Lemma sum_run (column : option string) (cond : DBCond) w :
  sum column cond w =
    if STRING_CHECK column
    then named_aggregate atof (λ name, sum_tbl_sql name column cond) w
    else (Aborted, w, []).
Proof.
  unfold sum, named_aggregate. unfold mbind at 1, M_bind at 1, TARO_ASSERT at 1.
  destruct (STRING_CHECK column); simpl; [|reflexivity].
  match goal with |- _ = ?run => destruct run as [[r w'] t] end. reflexivity.
Qed.

Lemma average_run (column : option string) (cond : DBCond) w :
  average column cond w =
    if STRING_CHECK column
    then named_aggregate atof (λ name, average_tbl_sql name column cond) w
    else (Aborted, w, []).
Proof.
  unfold average, named_aggregate. unfold mbind at 1, M_bind at 1, TARO_ASSERT at 1.
  destruct (STRING_CHECK column); simpl; [|reflexivity].
  match goal with |- _ = ?run => destruct run as [[r w'] t] end. reflexivity.
Qed.

Lemma count_run (cond : DBCond) w :
  count cond w =
    named_aggregate (λ text, to_size_t (atol text)) (λ name, count_tbl_sql name cond) w.
Proof. reflexivity. Qed.

Lemma first_value_absent (answer : option DBQueryResult) :
  first_value answer = None ↔
  answer = None ∨ ∃ result, answer = Some result ∧ get_col_val result 0 = None.
Proof.
  destruct answer as [result|]; simpl.
  - split.
    + intros Hnull. right. exists result. split; [reflexivity|exact Hnull].
    + intros [Hnone|[result' [Hsome Hnull]]]; [discriminate|].
      injection Hsome as ->. exact Hnull.
  - split; [intros _; left; reflexivity|reflexivity].
Qed.

Lemma named_aggregate_asks {V : Type} (convert : string → V) (sql_of : string → string) w :
  absent (reflector (registered_world w)) = false →
  empty (sql_of (find_class_name (reflector (registered_world w)) typeid)) = false →
  facade_calls (calls_of (named_aggregate convert sql_of w)) =
    [sql_of (find_class_name (reflector (registered_world w)) typeid)] ∧
  result_of (named_aggregate convert sql_of w) =
    Done (convert <$>
            first_value
              (facade_query (sql_of (find_class_name (reflector (registered_world w)) typeid))
                 (engine w)).1).
Proof.
  intros Hname Hsql. rewrite named_aggregate_run. cbv zeta.
  rewrite Hname, Hsql, engine_registered_world. unfold result_of, calls_of. simpl.
  rewrite facade_calls_app, facade_calls_registration. split; reflexivity.
Qed.

Lemma to_size_t_range (z : Z) : 0 ≤ to_size_t z < 2 ^ 64.
Proof. unfold to_size_t. apply Z.mod_pos_bound. reflexivity. Qed.

(** C7.  For a type that has a name once the lookup is over, and compiled
    text that is not empty, each aggregate hands that text to the facade's
    [query], once, and answers from the first column of what comes back.
    [count] returns a present value whenever that first-column value is not
    NULL: the integer [atol] parses from it, as a [size_t], which is 0 for
    the text "0", the count over no rows.  [sum] and [average], for a column
    [STRING_CHECK] accepts, return the converted value, and return the absent
    value exactly when the answer is the null pointer or its first-column
    value is SQL NULL. *)
Theorem aggregates_present_or_absent (column : option string) (cond : DBCond) w :
  let name := find_class_name (reflector (registered_world w)) typeid in
  absent (reflector (registered_world w)) = false →
  (∀ sql answer,
     sql = count_tbl_sql name cond → empty sql = false →
     answer = (facade_query sql (engine w)).1 →
     facade_calls (calls_of (count cond w)) = [sql] ∧
     result_of (count cond w) = Done ((λ text, to_size_t (atol text)) <$> first_value answer) ∧
     ∀ result text,
       answer = Some result → get_col_val result 0 = Some text →
       result_of (count cond w) = Done (Some (to_size_t (atol text))) ∧
       0 ≤ to_size_t (atol text) < 2 ^ 64 ∧
       (text = "0" → result_of (count cond w) = Done (Some 0))) ∧
  (STRING_CHECK column = true →
   ∀ sql answer,
     sql = sum_tbl_sql name column cond → empty sql = false →
     answer = (facade_query sql (engine w)).1 →
     facade_calls (calls_of (sum column cond w)) = [sql] ∧
     result_of (sum column cond w) = Done (atof <$> first_value answer) ∧
     (result_of (sum column cond w) = Done None ↔
      answer = None ∨ ∃ result, answer = Some result ∧ get_col_val result 0 = None)) ∧
  (STRING_CHECK column = true →
   ∀ sql answer,
     sql = average_tbl_sql name column cond → empty sql = false →
     answer = (facade_query sql (engine w)).1 →
     facade_calls (calls_of (average column cond w)) = [sql] ∧
     result_of (average column cond w) = Done (atof <$> first_value answer) ∧
     (result_of (average column cond w) = Done None ↔
      answer = None ∨ ∃ result, answer = Some result ∧ get_col_val result 0 = None)).
Proof.
  intros name Hname. subst name.
  assert (Habsent : ∀ (r : outcome (option double)) answer,
            r = Done (atof <$> first_value answer) →
            (r = Done None ↔
             answer = None ∨ ∃ result, answer = Some result ∧ get_col_val result 0 = None)).
  { intros r answer ->. rewrite <- first_value_absent.
    destruct (first_value answer); simpl; split; intros Heq; try discriminate; reflexivity. }
  split; [|split].
  - intros sql answer -> Hsql ->. rewrite count_run.
    destruct (named_aggregate_asks (λ text, to_size_t (atol text))
                (λ name, count_tbl_sql name cond) w Hname Hsql) as [Hfacade Hresult].
    split; [exact Hfacade|]. split; [exact Hresult|].
    intros result text Hanswer Htext. rewrite Hresult, Hanswer. simpl. rewrite Htext.
    split; [reflexivity|]. split; [apply to_size_t_range|]. intros ->. reflexivity.
  - intros Hcolumn sql answer -> Hsql ->. rewrite sum_run, Hcolumn.
    destruct (named_aggregate_asks atof (λ name, sum_tbl_sql name column cond) w Hname Hsql)
      as [Hfacade Hresult].
    split; [exact Hfacade|]. split; [exact Hresult|]. apply Habsent. exact Hresult.
  - intros Hcolumn sql answer -> Hsql ->. rewrite average_run, Hcolumn.
    destruct (named_aggregate_asks atof (λ name, average_tbl_sql name column cond) w
                Hname Hsql) as [Hfacade Hresult].
    split; [exact Hfacade|]. split; [exact Hresult|]. apply Habsent. exact Hresult.
Qed.

(** C8, amended.  For every aggregate ([sum], [count], [average]) the empty
    string from the compiler is caught before any execution: no SQL text
    reaches the facade.  It is caught by [TARO_ASSERT( !sql.empty() )], so the
    run ends in the abort of that assertion, not in an absent value. *)
Theorem aggregate_empty_sql_aborts (column : option string) (cond : DBCond) w :
  (EvCompile "" ∈ calls_of (sum column cond w) →
     result_of (sum column cond w) = Aborted ∧
     facade_calls (calls_of (sum column cond w)) = []) ∧
  (EvCompile "" ∈ calls_of (count cond w) →
     result_of (count cond w) = Aborted ∧
     facade_calls (calls_of (count cond w)) = []) ∧
  (EvCompile "" ∈ calls_of (average column cond w) →
     result_of (average column cond w) = Aborted ∧
     facade_calls (calls_of (average column cond w)) = []).
Proof.
  rewrite sum_run, average_run, count_run.
  split; [|split]; try apply named_aggregate_empty_sql;
    destruct (STRING_CHECK column); try apply named_aggregate_empty_sql;
    intros Hin; apply not_elem_of_nil in Hin; destruct Hin.
Qed.

(** *** Where the SQL text comes from *)

Lemma neutral_registration w : Forall neutral (registration_calls w).
Proof.
  unfold registration_calls. destruct (absent (reflector w)).
  - apply Forall_cons. split; [exact I|apply Forall_nil_2].
  - apply Forall_nil_2.
Qed.

Lemma neutral_deserialize t : Forall is_deserialize t → Forall neutral t.
Proof.
  intros Hall. apply (Forall_impl _ _ _ Hall). intros [ty|sql|entry sql|answer|member text]; simpl; tauto.
Qed.

Lemma compiled_only_neutral_app (seen : list string) t1 t2 :
  Forall neutral t1 → compiled_only seen (t1 ++ t2) = compiled_only seen t2.
Proof.
  induction 1 as [|e t1 He _ IH]; [reflexivity|].
  destruct e; simpl in *; try destruct He; exact IH.
Qed.

Lemma compiled_only_neutral (seen : list string) t :
  Forall neutral t → compiled_only seen t = true.
Proof.
  intros Hneutral. rewrite <- (app_nil_r t), compiled_only_neutral_app by exact Hneutral.
  reflexivity.
Qed.

Lemma compiled_only_asked (sql : string) (entry : FacadeEntry) t :
  Forall neutral t → compiled_only [] (EvCompile sql :: EvFacade entry sql :: t) = true.
Proof.
  intros Hneutral. simpl. rewrite String.eqb_refl. simpl.
  apply compiled_only_neutral. exact Hneutral.
Qed.

Lemma insert_ret_id_run (obj : Obj) (args : list (DBModifyParam → DBModifyParam)) w :
  insert_ret_id obj args w =
    if with_members w then
      let w1 := registered_world w in
      let cmd := mutation_sql (Insert obj args) w in
      if empty cmd then (Done None, w1, registration_calls w ++ [EvCompile cmd])
      else
        let '(status, id, e) := exec_cmd_ret_id cmd (engine w1) in
        (Done (if negb (TARO_OK =? status) then None else Some id),
         mkWorld (reflector w1) e,
         registration_calls w ++ [EvCompile cmd; EvFacade ExecCmdRetId cmd])
    else (Aborted, registered_world w, registration_calls w).
Proof.
  unfold insert_ret_id. unfold mbind at 1, M_bind at 1. rewrite cls_info_checked_run.
  destruct (with_members w); [|reflexivity]. simpl.
  unfold mutation_sql. unfold_calls.
  match goal with |- context [empty ?cmd] => destruct (empty cmd) end; [reflexivity|].
  destruct (exec_cmd_ret_id _ _) as [[status id] e]. simpl.
  destruct (negb (TARO_OK =? status)); reflexivity.
Qed.

Lemma drop_table_run w :
  drop_table w =
    let w1 := registered_world w in
    let cmd := "drop table " +:+ find_class_name (reflector w1) typeid in
    if absent (reflector w1) then (Aborted, w1, registration_calls w)
    else (Done (if negb (TARO_OK =? (excute_cmd cmd (engine w1)).1)
                then TARO_ERR_FAILED else TARO_OK),
          mkWorld (reflector w1) (excute_cmd cmd (engine w1)).2,
          registration_calls w ++ [EvFacade ExcuteCmd cmd]).
Proof.
  unfold drop_table. unfold mbind at 1, M_bind at 1. rewrite get_class_name_run.
  destruct (absent (reflector (registered_world w))); [reflexivity|]. simpl.
  unfold_calls. destruct (excute_cmd _ _) as [status e]. simpl.
  destruct (negb (TARO_OK =? status)); reflexivity.
Qed.

Lemma named_aggregate_compiled_only {V : Type} (convert : string → V)
    (sql_of : string → string) w :
  compiled_only [] (calls_of (named_aggregate convert sql_of w)) = true.
Proof.
  rewrite named_aggregate_run. simpl. unfold calls_of.
  destruct (absent _); simpl.
  { apply compiled_only_neutral, neutral_registration. }
  destruct (empty _); simpl;
    rewrite compiled_only_neutral_app by apply neutral_registration.
  - reflexivity.
  - apply compiled_only_asked. apply Forall_cons. split; [exact I|apply Forall_nil_2].
Qed.

(** C9, amended.  Every typed operation other than [drop_table] hands the
    execution facade only text that one of the [*_tbl_sql] compilers returned
    to it in the same call: [create_table], [insert], [update], [remove],
    [insert_ret_id], [query], [sum], [count], [average].  [drop_table] makes
    no compiler call; it hands [excute_cmd] the text "drop table " followed
    by the class name, put together in place. *)
Theorem only_drop_table_bypasses_compiler w :
  (∀ m : Mutation, compiled_only [] (calls_of (run_mutation m w)) = true) ∧
  (∀ obj args, compiled_only [] (calls_of (insert_ret_id obj args w)) = true) ∧
  (∀ args, compiled_only [] (calls_of (query args w)) = true) ∧
  (∀ column cond,
     compiled_only [] (calls_of (sum column cond w)) = true ∧
     compiled_only [] (calls_of (count cond w)) = true ∧
     compiled_only [] (calls_of (average column cond w)) = true) ∧
  (∀ name,
     result_of (get_class_name w) = Done name →
     calls_of (drop_table w) =
       registration_calls w ++ [EvFacade ExcuteCmd ("drop table " +:+ name)]).
Proof.
  split; [|split; [|split; [|split; [intros column cond; split; [|split]|]]]].
  - intros m. rewrite run_mutation_run. unfold calls_of.
    destruct (mutation_ready m w); simpl.
    + destruct (empty (mutation_sql m w)); simpl;
        rewrite compiled_only_neutral_app by apply neutral_registration.
      * reflexivity.
      * apply compiled_only_asked, Forall_nil_2.
    + apply compiled_only_neutral, neutral_registration.
  - intros obj args. rewrite insert_ret_id_run. unfold calls_of.
    destruct (with_members w); simpl.
    + destruct (empty _); simpl.
      * rewrite compiled_only_neutral_app by apply neutral_registration. reflexivity.
      * destruct (exec_cmd_ret_id _ _) as [[status id] e]. simpl.
        rewrite compiled_only_neutral_app by apply neutral_registration.
        apply compiled_only_asked, Forall_nil_2.
    + apply compiled_only_neutral, neutral_registration.
  - intros args. rewrite query_run. unfold calls_of at 1.
    destruct (with_members w); simpl.
    2: { apply compiled_only_neutral, neutral_registration. }
    assert (Hasked : ∀ answer : option DBQueryResult, Forall neutral [EvAnswer answer]).
    { intros answer. apply Forall_cons. split; [exact I|apply Forall_nil_2]. }
    destruct (empty (query_sql args w)); simpl.
    { rewrite compiled_only_neutral_app by apply neutral_registration. reflexivity. }
    destruct (facade_query _ _).1 as [result|]; simpl.
    + destruct (bool_decide (get_columns result = [])); simpl;
        rewrite compiled_only_neutral_app by apply neutral_registration.
      * apply compiled_only_asked, Hasked.
      * apply compiled_only_asked. apply Forall_cons. split; [exact I|].
        apply neutral_deserialize, marshal_rows_calls.
    + rewrite compiled_only_neutral_app by apply neutral_registration.
      apply compiled_only_asked, Hasked.
  - rewrite sum_run. destruct (STRING_CHECK column);
      [apply named_aggregate_compiled_only|reflexivity].
  - rewrite count_run. apply named_aggregate_compiled_only.
  - rewrite average_run. destruct (STRING_CHECK column);
      [apply named_aggregate_compiled_only|reflexivity].
  - intros name Hname. rewrite get_class_name_run in Hname. rewrite drop_table_run.
    unfold result_of, calls_of in *. simpl in *.
    destruct (absent _); [discriminate|]. injection Hname as <-. reflexivity.
Qed.

(** *** The shape of every run *)

Lemma world_eta w : mkWorld (reflector w) (engine w) = w.
Proof. destruct w. reflexivity. Qed.

Lemma with_members_registered w :
  with_members w = true → absent (reflector (registered_world w)) = false.
Proof.
  unfold with_members. intros Hboth. apply andb_prop in Hboth as [Hname _].
  apply negb_true_iff. exact Hname.
Qed.

Lemma mutation_ready_registered (m : Mutation) w :
  mutation_ready m w = true → absent (reflector (registered_world w)) = false.
Proof.
  destruct m; simpl; try apply with_members_registered.
  intros Hname. apply negb_true_iff. exact Hname.
Qed.

Lemma deserialize_only_calls t :
  Forall is_deserialize t →
  facade_calls t = [] ∧ compile_calls t = [] ∧ Forall no_reflect t.
Proof.
  induction 1 as [|e t He _ (Hfacade & Hcompile & Hreflect)].
  - repeat split. apply Forall_nil_2.
  - destruct e; simpl in He; try destruct He.
    repeat split; [exact Hfacade|exact Hcompile|].
    apply Forall_cons. split; [exact I|exact Hreflect].
Qed.

Lemma orderly_after_lookup w (ok : bool) (e : Engine) (rest : list Event) :
  Forall no_reflect rest →
  (absent (reflector (registered_world w)) = true → ok = false ∧ rest = []) →
  (length (facade_calls rest) ≤ 1)%nat →
  (length (compile_calls rest) ≤ 1)%nat →
  (facade_calls rest = [] → e = engine w) →
  orderly w (ok, mkWorld (reflector (registered_world w)) e, registration_calls w ++ rest).
Proof.
  intros Hreflect Hok Hfacade Hcompile Hengine. right. split; [reflexivity|].
  exists rest. split; [reflexivity|]. split; [exact Hreflect|]. split; [exact Hok|].
  split; [exact Hfacade|]. split; [exact Hcompile|exact Hengine].
Qed.

Lemma orderly_before_facade w (ok : bool) (rest : list Event) :
  Forall no_reflect rest →
  (absent (reflector (registered_world w)) = true → ok = false ∧ rest = []) →
  facade_calls rest = [] →
  (length (compile_calls rest) ≤ 1)%nat →
  orderly w (ok, registered_world w, registration_calls w ++ rest).
Proof.
  intros Hreflect Hok Hfacade Hcompile.
  pose proof (orderly_after_lookup w ok (engine (registered_world w)) rest) as Hshape.
  rewrite world_eta, Hfacade in Hshape. apply Hshape; try assumption.
  - simpl. lia.
  - intros _. apply engine_registered_world.
Qed.

Lemma orderly_lookup_abort w :
  orderly w (false, registered_world w, registration_calls w).
Proof.
  rewrite <- (app_nil_r (registration_calls w)).
  apply orderly_before_facade; simpl.
  - apply Forall_nil_2.
  - intros _. split; reflexivity.
  - reflexivity.
  - lia.
Qed.

Ltac orderly_side :=
  simpl;
  first [ discriminate
        | lia
        | solve [repeat (apply Forall_cons; split; [exact I|]); apply Forall_nil_2]
        | solve [intros _; apply engine_registered_world]
        | solve [congruence]
        | reflexivity
        | idtac ].

Lemma orderly_named_aggregate {V : Type} (convert : string → V) (sql_of : string → string) w :
  orderly w (summary (named_aggregate convert sql_of w)).
Proof.
  rewrite named_aggregate_run. simpl. unfold summary, result_of, world_of, calls_of.
  destruct (absent (reflector (registered_world w))) eqn:Hname; simpl.
  { apply orderly_lookup_abort. }
  destruct (empty _); simpl.
  - apply orderly_before_facade; orderly_side.
  - apply orderly_after_lookup; orderly_side.
Qed.

Lemma orderly_run_op (op : TypedOp) w : orderly w (run_op op w).
Proof.
  destruct op as [m| |args|obj args|column cond|cond|column cond]; simpl.
  - rewrite run_mutation_run. unfold summary, result_of, world_of, calls_of.
    destruct (mutation_ready m w) eqn:Hready; simpl; [|apply orderly_lookup_abort].
    apply mutation_ready_registered in Hready.
    destruct (empty (mutation_sql m w)); simpl.
    + apply orderly_before_facade; orderly_side.
    + apply orderly_after_lookup; orderly_side.
  - rewrite drop_table_run. simpl. unfold summary, result_of, world_of, calls_of.
    destruct (absent (reflector (registered_world w))) eqn:Hname; simpl.
    + apply orderly_lookup_abort.
    + apply orderly_after_lookup; orderly_side.
  - rewrite query_run. unfold summary.
    destruct (with_members w) eqn:Hready; simpl; [|apply orderly_lookup_abort].
    apply with_members_registered in Hready.
    destruct (empty (query_sql args w)); simpl.
    { unfold result_of, world_of, calls_of. simpl.
      apply orderly_before_facade; orderly_side. }
    destruct (facade_query _ _).1 as [result|]; simpl.
    + destruct (bool_decide (get_columns result = [])); simpl.
      * unfold result_of, world_of, calls_of. simpl.
        apply orderly_after_lookup; orderly_side.
      * match goal with |- context [marshal_rows ?ms ?cs ?c ?acc ?w2] =>
          destruct (marshal_rows_calls ms cs c acc w2) as [Hworld Hcalls];
          apply deserialize_only_calls in Hcalls as (Hfacade & Hcompile & Hreflect);
          unfold result_of at 1, world_of at 1, calls_of at 1; simpl;
          rewrite Hworld
        end.
        apply orderly_after_lookup; simpl; rewrite ?Hfacade, ?Hcompile; orderly_side.
        repeat (apply Forall_cons; split; [exact I|]). exact Hreflect.
    + unfold result_of, world_of, calls_of. simpl.
      apply orderly_after_lookup; orderly_side.
  - rewrite insert_ret_id_run. unfold summary, result_of, world_of, calls_of.
    destruct (with_members w) eqn:Hready; simpl; [|apply orderly_lookup_abort].
    apply with_members_registered in Hready.
    destruct (empty _); simpl.
    + apply orderly_before_facade; orderly_side.
    + destruct (exec_cmd_ret_id _ _) as [[status id] e]. simpl.
      apply orderly_after_lookup; orderly_side.
  - rewrite sum_run. destruct (STRING_CHECK column).
    + apply orderly_named_aggregate.
    + left. reflexivity.
  - rewrite count_run. apply orderly_named_aggregate.
  - rewrite average_run. destruct (STRING_CHECK column).
    + apply orderly_named_aggregate.
    + left. reflexivity.
Qed.

(** *** What every typed operation keeps to *)

Lemma compile_calls_app t1 t2 :
  compile_calls (t1 ++ t2) = compile_calls t1 ++ compile_calls t2.
Proof. apply omap_app. Qed.

Lemma compile_calls_registration w : compile_calls (registration_calls w) = [].
Proof. unfold registration_calls. destruct (absent (reflector w)); reflexivity. Qed.

Lemma registered_world_registered w :
  absent (reflector w) = false → registered_world w = w ∧ registration_calls w = [].
Proof.
  intros Hname. unfold registered_world, registration_calls. rewrite Hname.
  split; reflexivity.
Qed.

Lemma registered_world_cases w :
  reflector (registered_world w) = reflector w ∨
  (absent (reflector w) = true ∧
   reflector (registered_world w) = db_cls_reflect (reflector w)).
Proof.
  unfold registered_world. destruct (absent (reflector w)); [right|left].
  - split; reflexivity.
  - reflexivity.
Qed.

(** Every typed operation calls a SQL compiler at most once and the
    execution facade at most once. *)
Theorem at_most_one_compile_and_execution (op : TypedOp) w :
  (length (compile_calls (run_op op w).2) ≤ 1)%nat ∧
  (length (facade_calls (run_op op w).2) ≤ 1)%nat.
Proof.
  destruct (orderly_run_op op w) as [Hnothing|[_ (rest & Hcalls & _ & _ & Hfacade & Hcompile & _)]].
  - rewrite Hnothing. simpl. lia.
  - rewrite Hcalls, compile_calls_app, facade_calls_app,
      compile_calls_registration, facade_calls_registration.
    split; assumption.
Qed.

(** A typed operation that hands nothing to the execution facade leaves the
    engine exactly as it found it, whether it returns or aborts. *)
Theorem engine_untouched_without_facade (op : TypedOp) w :
  facade_calls (run_op op w).2 = [] →
  engine (run_op op w).1.2 = engine w.
Proof.
  destruct (orderly_run_op op w) as [Hnothing|[_ (rest & Hcalls & _ & _ & _ & _ & Hengine)]].
  - rewrite Hnothing. reflexivity.
  - rewrite Hcalls, facade_calls_app, facade_calls_registration. exact Hengine.
Qed.

(** The registry is written by the registration callback only: the registry
    a typed operation leaves is the one it found, or, when the type had no
    name, the one [T::db_cls_reflect] made of it. *)
Theorem registry_written_by_callback_only (op : TypedOp) w :
  reflector (run_op op w).1.2 = reflector w ∨
  (absent (reflector w) = true ∧
   reflector (run_op op w).1.2 = db_cls_reflect (reflector w)).
Proof.
  destruct (orderly_run_op op w) as [Hnothing|[Hregistry _]].
  - rewrite Hnothing. left. reflexivity.
  - rewrite Hregistry. apply registered_world_cases.
Qed.

Lemma run_op_registered (op : TypedOp) w :
  absent (reflector w) = false →
  reflector (run_op op w).1.2 = reflector w ∧
  Forall no_reflect (run_op op w).2.
Proof.
  intros Hname. destruct (registered_world_registered w Hname) as [Hworld Hnone].
  destruct (orderly_run_op op w) as [Hnothing|[Hregistry (rest & Hcalls & Hrest & _)]].
  - rewrite Hnothing. split; [reflexivity|apply Forall_nil_2].
  - rewrite Hregistry, Hcalls, Hworld, Hnone. split; [reflexivity|exact Hrest].
Qed.

(** Once the type has a name in the registry, no typed operation calls the
    registration callback and none changes the registry. *)
Theorem registered_type_is_left_alone (op : TypedOp) w :
  absent (reflector w) = false →
  reflector (run_op op w).1.2 = reflector w ∧
  Forall no_reflect (run_op op w).2.
Proof. apply run_op_registered. Qed.

(** Lazy registration happens once per type: after any typed operation on a
    type has returned, whatever typed operation on that same type follows
    calls no registration callback and leaves the registry as the first one
    left it. *)
Theorem registration_happens_once (first second : TypedOp) w :
  (run_op first w).1.1 = true →
  Forall no_reflect (run_op second (run_op first w).1.2).2 ∧
  reflector (run_op second (run_op first w).1.2).1.2 = reflector (run_op first w).1.2.
Proof.
  intros Hreturned.
  assert (Hname : absent (reflector (run_op first w).1.2) = false).
  { destruct (orderly_run_op first w) as [Hnothing|[Hregistry (rest & _ & _ & Hstill & _)]].
    - rewrite Hnothing in Hreturned. discriminate.
    - rewrite Hregistry.
      destruct (absent (reflector (registered_world w))); [|reflexivity].
      destruct (Hstill eq_refl) as [Hno _]. congruence. }
  destruct (run_op_registered second _ Hname) as [Hregistry Hcalls].
  split; assumption.
Qed.

(** A type whose callback does not give it a name cannot be used: every
    typed operation aborts, with no compiler call, no facade call and the
    engine untouched. *)
Theorem unregistered_type_aborts (op : TypedOp) w :
  absent (reflector (registered_world w)) = true →
  (run_op op w).1.1 = false ∧
  compile_calls (run_op op w).2 = [] ∧
  facade_calls (run_op op w).2 = [] ∧
  engine (run_op op w).1.2 = engine w.
Proof.
  intros Hstill.
  destruct (orderly_run_op op w) as [Hnothing|[_ (rest & Hcalls & _ & Habort & _ & _ & Hengine)]].
  - rewrite Hnothing. repeat split.
  - destruct (Habort Hstill) as [Hno Hrest]. subst rest.
    rewrite Hcalls, app_nil_r, compile_calls_registration, facade_calls_registration.
    split; [exact Hno|]. split; [reflexivity|]. split; [reflexivity|].
    apply Hengine. reflexivity.
Qed.

(** A type registered with a name but without members: the operations that
    need the members ([create_table], [insert], [update], [insert_ret_id],
    [query]) abort on [TARO_ASSERT( !name.empty() && members.size() )], right
    after the lookup and before any compiler call. *)
Theorem memberless_type_aborts (op : TypedOp) w :
  needs_members op = true →
  members_of w = [] →
  run_op op w = (false, registered_world w, registration_calls w).
Proof.
  intros Hneeds Hnone.
  assert (Hready : with_members w = false).
  { unfold with_members. fold (members_of w). rewrite Hnone. apply andb_false_r. }
  destruct op as [m| |args|obj args|column cond|cond|column cond]; try discriminate; simpl.
  - rewrite run_mutation_run.
    destruct m; try discriminate; simpl; rewrite Hready; reflexivity.
  - rewrite query_run, Hready. reflexivity.
  - rewrite insert_ret_id_run, Hready. reflexivity.
Qed.

(** *** Execution and its failures *)

(** Splits a membership in the calls of a run into the cases of its events;
    the cases that are impossible by the kind of event are closed. *)
Ltac split_calls Hin :=
  repeat first
    [ apply elem_of_app in Hin as [Hin|Hin];
      [apply registration_calls_reflect in Hin; discriminate|]
    | apply elem_of_cons in Hin as [Hin|Hin]; [try discriminate|]
    | apply not_elem_of_nil in Hin; destruct Hin ].

(** When a mutation ([create_table], [insert], [update], [remove]) reaches
    the facade, it hands over exactly the text its compiler returned, once,
    and reports the status of the execution: [TARO_OK] when [excute_cmd]
    gave [TARO_OK], [TARO_ERR_FAILED] for every other status.  The engine is
    left as [excute_cmd] left it. *)
Theorem mutation_reports_execution_status (m : Mutation) w (sql : string) :
  EvFacade ExcuteCmd sql ∈ calls_of (run_mutation m w) →
  sql = mutation_sql m w ∧
  facade_calls (calls_of (run_mutation m w)) = [sql] ∧
  result_of (run_mutation m w) =
    Done (if TARO_OK =? (excute_cmd sql (engine w)).1 then TARO_OK else TARO_ERR_FAILED) ∧
  engine (world_of (run_mutation m w)) = (excute_cmd sql (engine w)).2.
Proof.
  rewrite run_mutation_run. unfold result_of, world_of, calls_of.
  destruct (mutation_ready m w); simpl.
  2: { intros Hin. apply registration_calls_reflect in Hin. discriminate. }
  destruct (empty (mutation_sql m w)); simpl; intros Hin; split_calls Hin.
  injection Hin as ->. rewrite engine_registered_world.
  split; [reflexivity|]. split.
  - rewrite facade_calls_app, facade_calls_registration. reflexivity.
  - split; [|reflexivity].
    destruct (TARO_OK =? _); reflexivity.
Qed.

(** [insert_ret_id] returns the absent value, without a facade call, when
    the compiler returns the empty string; and it returns a present id
    exactly when it handed a text to [exec_cmd_ret_id] and that call gave
    status [TARO_OK] together with this id. *)
Theorem insert_ret_id_present_iff_executed (obj : Obj)
    (args : list (DBModifyParam → DBModifyParam)) w :
  (EvCompile "" ∈ calls_of (insert_ret_id obj args w) →
     result_of (insert_ret_id obj args w) = Done None ∧
     facade_calls (calls_of (insert_ret_id obj args w)) = []) ∧
  (∀ id : Z,
     result_of (insert_ret_id obj args w) = Done (Some id) ↔
     ∃ sql e, EvFacade ExecCmdRetId sql ∈ calls_of (insert_ret_id obj args w) ∧
              exec_cmd_ret_id sql (engine w) = (TARO_OK, id, e)).
Proof.
  rewrite insert_ret_id_run. unfold result_of, calls_of.
  remember (mutation_sql (Insert obj args) w) as cmd eqn:Hcmd. clear Hcmd.
  destruct (with_members w); simpl.
  2: { split.
       - intros Hin. apply registration_calls_reflect in Hin. discriminate.
       - intros id. split; [discriminate|].
         intros (sql & e & Hin & _). apply registration_calls_reflect in Hin. discriminate. }
  rewrite engine_registered_world.
  destruct (empty cmd) eqn:Hsql; simpl.
  { split.
    - intros _. split; [reflexivity|].
      rewrite facade_calls_app, facade_calls_registration. reflexivity.
    - intros id. split; [discriminate|].
      intros (sql & e & Hin & _). split_calls Hin. }
  destruct (exec_cmd_ret_id _ _) as [[status id'] e'] eqn:Hexec. simpl. split.
  - intros Hin. split_calls Hin. injection Hin as Hin. rewrite <- Hin in Hsql. discriminate.
  - intros id. split.
    + destruct (TARO_OK =? status) eqn:Hstatus; simpl; [|discriminate].
      intros Hid. injection Hid as ->. apply Z.eqb_eq in Hstatus. subst status.
      exists cmd, e'. split; [|exact Hexec].
      apply elem_of_app. right. apply list_elem_of_further, list_elem_of_here.
    + intros (sql & e & Hin & Hok). split_calls Hin. injection Hin as ->.
      rewrite Hexec in Hok. injection Hok as -> -> _.
      rewrite Z.eqb_refl. reflexivity.
Qed.

(** [drop_table], for a type that has a name once the lookup is over, never
    calls a compiler, hands "drop table " followed by that name to
    [excute_cmd] and reports the status of the execution: [TARO_OK] when
    [excute_cmd] gave [TARO_OK], [TARO_ERR_FAILED] otherwise. *)
Theorem drop_table_reports_execution_status w :
  absent (reflector (registered_world w)) = false →
  let cmd := "drop table " +:+ find_class_name (reflector (registered_world w)) typeid in
  result_of (drop_table w) =
    Done (if TARO_OK =? (excute_cmd cmd (engine w)).1 then TARO_OK else TARO_ERR_FAILED) ∧
  compile_calls (calls_of (drop_table w)) = [] ∧
  facade_calls (calls_of (drop_table w)) = [cmd] ∧
  engine (world_of (drop_table w)) = (excute_cmd cmd (engine w)).2.
Proof.
  intros Hname cmd. subst cmd. rewrite drop_table_run. simpl. rewrite Hname.
  unfold result_of, world_of, calls_of. simpl. rewrite engine_registered_world.
  split; [destruct (TARO_OK =? _); reflexivity|].
  rewrite compile_calls_app, facade_calls_app, compile_calls_registration,
    facade_calls_registration.
  repeat split.
Qed.

(** The two soft failures of [query]: when the compiler returns the empty
    string the facade is not called, and when the facade answers with the
    null pointer nothing is deserialised; either way [query] returns the
    empty sequence and does not abort. *)
Theorem query_soft_failures (args : list (DBQueryParam → DBQueryParam)) w :
  (EvCompile "" ∈ calls_of (query args w) →
     result_of (query args w) = Done [] ∧
     facade_calls (calls_of (query args w)) = []) ∧
  (EvAnswer None ∈ calls_of (query args w) →
     result_of (query args w) = Done [] ∧
     deserialize_calls (calls_of (query args w)) = []).
Proof.
  rewrite query_run. unfold calls_of at 1 3.
  destruct (with_members w); simpl.
  2: { split; intros Hin; apply registration_calls_reflect in Hin; discriminate. }
  destruct (empty (query_sql args w)) eqn:Hsql; simpl.
  { split.
    - intros _. split; [reflexivity|]. unfold calls_of. simpl.
      rewrite facade_calls_app, facade_calls_registration. reflexivity.
    - intros Hin. split_calls Hin. }
  destruct (facade_query _ _).1 as [result|]; simpl.
  - assert (Hloop : ∀ e : Event, (∀ member text, e ≠ EvDeserialize member text) →
              e ∉ calls_of (marshal_rows (members_of w) (get_columns result) result []
                              (mkWorld (reflector (registered_world w))
                                 (facade_query (query_sql args w)
                                    (engine (registered_world w))).2))).
    { intros e Hother Hin.
      destruct (marshal_rows_calls (members_of w) (get_columns result) result []
                  (mkWorld (reflector (registered_world w))
                     (facade_query (query_sql args w) (engine (registered_world w))).2))
        as [_ Hall].
      rewrite Forall_forall in Hall. specialize (Hall e Hin).
      destruct e; simpl in Hall; try destruct Hall. exact (Hother _ _ eq_refl). }
    destruct (bool_decide (get_columns result = [])); simpl; split; intros Hin;
      split_calls Hin;
      try (injection Hin as Hin; rewrite <- Hin in Hsql; discriminate);
      exfalso; revert Hin; apply Hloop; discriminate.
  - split; intros Hin; split_calls Hin.
    + injection Hin as Hin. rewrite <- Hin in Hsql. discriminate.
    + split; [reflexivity|]. unfold calls_of. simpl.
      rewrite deserialize_calls_app, deserialize_calls_registration. reflexivity.
Qed.

(** The loop of [query] tests [next] after its body: whenever [query] gets a
    cursor with at least one column and returns, it returns one object for
    the position the cursor was handed over in and one for every row [next]
    reaches, so never fewer than one object. *)
Theorem query_returns_at_least_one_object (args : list (DBQueryParam → DBQueryParam))
    w result (objects : list Obj) :
  EvAnswer (Some result) ∈ calls_of (query args w) →
  get_columns result ≠ [] →
  result_of (query args w) = Done objects →
  length objects = Nat.max 1 (length (rows result)).
Proof.
  intros Hanswered Hcols Hdone. apply query_answered in Hanswered as [w2 Hrun].
  simpl in Hrun. rewrite Hrun, bool_decide_eq_false_2 in Hdone by exact Hcols.
  unfold result_of at 1 in Hdone. simpl in Hdone.
  destruct (decide (all_known (members_of w) (get_columns result))) as [Hknown|Hunknown].
  - rewrite marshal_rows_known in Hdone by exact Hknown.
    unfold result_of in Hdone. simpl in Hdone. injection Hdone as <-.
    rewrite length_fmap. unfold rows_visited.
    destruct (rows result); simpl; lia.
  - rewrite (marshal_rows_unknown _ _ _ _ _ Hunknown) in Hdone. discriminate.
Qed.

(** [sum] and [average] check their column argument first: with a column
    [STRING_CHECK] rejects they abort before the lookup, so the registration
    callback is not called, the registry and the engine stay as they were and
    no call at all is made. *)
Theorem invalid_column_aborts_first (column : option string) (cond : DBCond) w :
  STRING_CHECK column = false →
  sum column cond w = (Aborted, w, []) ∧
  average column cond w = (Aborted, w, []).
Proof.
  intros Hcolumn. rewrite sum_run, average_run, Hcolumn. split; reflexivity.
Qed.

End Properties.

(** ** The statements at work on the [User] instance *)

Import Demo.

Ltac in_calls := vm_compute; repeat constructor.

(** Proves the first premise of [H] as a goal of its own and puts it in. *)
Ltac feed H :=
  match type of H with
  | ?A → _ => let Ha := fresh "Hpremise" in assert (Ha : A); [|specialize (H Ha); clear Ha]
  end.

Lemma empty_sql_is_invalid_arg_witness :
  result_of (run_mutation (Remove bad_cond) (fresh None)) = Done TARO_ERR_INVALID_ARG ∧
  facade_calls (calls_of (run_mutation (Remove bad_cond) (fresh None))) = [] ∧
  engine (world_of (run_mutation (Remove bad_cond) (fresh None))) = engine (fresh None).
Proof. apply (empty_sql_is_invalid_arg (Remove bad_cond) (fresh None)). in_calls. Defined.

Lemma unknown_column_aborts_witness :
  result_of (query [] (fresh (Some drifted))) = Aborted.
Proof.
  apply (unknown_column_aborts [] (fresh (Some drifted)) drifted "email").
  - in_calls.
  - in_calls.
  - reflexivity.
Defined.

Lemma one_object_per_row_witness :
  result_of (query [] (fresh (Some two_users))) =
    Done [mkUser 1 "Alice" 30; mkUser 2 "" 41].
Proof.
  rewrite (one_object_per_row [] (fresh (Some two_users)) two_users).
  - vm_compute. reflexivity.
  - in_calls.
  - discriminate.
  - repeat (apply Forall_cons; split; [eexists; reflexivity|]). apply Forall_nil_2.
  - discriminate.
Defined.

(** C3 fails on a cursor without rows: the loop tests [next] only after its
    body, so [query] returns one object, built from null reads, where the
    claim has the empty sequence. *)
Lemma zero_rows_one_object :
  EvAnswer (Some no_rows) ∈ calls_of (query [] (fresh (Some no_rows))) ∧
  rows no_rows = [] ∧
  result_of (query [] (fresh (Some no_rows))) = Done [mkUser 0 "" 0].
Proof. split; [in_calls|]. split; reflexivity. Qed.

Lemma null_reaches_deserialize_witness :
  ("name", None) ∈ deserialize_calls (calls_of (query [] (fresh (Some nameless)))) ∧
  result_of (query [] (fresh (Some nameless_drifted))) = Aborted ∧
  deserialize_calls (calls_of (query [] (fresh (Some nameless_drifted)))) =
    [("id", Some "1")].
Proof.
  split.
  - assert (Hanswered : EvAnswer (Some nameless) ∈
                        calls_of (query [] (fresh (Some nameless)))) by in_calls.
    assert (Hrows : rows nameless ≠ []) by discriminate.
    assert (Hknown : all_known (members_of (fresh (Some nameless))) (get_columns nameless)).
    { repeat (apply Forall_cons; split; [eexists; reflexivity|]). apply Forall_nil_2. }
    destruct (null_reaches_deserialize [] (fresh (Some nameless)) nameless
                Hanswered Hrows) as [Hall _].
    destruct (Hall Hknown) as [_ Hnull].
    apply (Hnull [Some "2"; None; Some "41"] 1%nat "name").
    + in_calls.
    + reflexivity.
    + vm_compute. reflexivity.
  - assert (Hanswered : EvAnswer (Some nameless_drifted) ∈
                        calls_of (query [] (fresh (Some nameless_drifted)))) by in_calls.
    assert (Hrows : rows nameless_drifted ≠ []) by discriminate.
    assert (Hunknown : ¬ all_known (members_of (fresh (Some nameless_drifted)))
                         (get_columns nameless_drifted)).
    { intros Hknown. apply Forall_cons in Hknown as [_ Hknown].
      apply Forall_cons in Hknown as [[ptr Hptr] _]. vm_compute in Hptr. discriminate. }
    destruct (null_reaches_deserialize [] (fresh (Some nameless_drifted)) nameless_drifted
                Hanswered Hrows) as [_ Hstops].
    destruct (Hstops Hunknown) as (Haborted & Hcalls & _).
    split; [exact Haborted|]. rewrite Hcalls. vm_compute. reflexivity.
Defined.

(** C4 fails on a row with a NULL: the value of column 1 is NULL, and the
    [deserialize] of the member "name" is called all the same, with the null
    pointer. *)
Lemma null_is_deserialized :
  get_col_val nameless 1 = None ∧
  EvDeserialize "name" None ∈ calls_of (query [] (fresh (Some nameless))).
Proof. split; [reflexivity|in_calls]. Qed.

Lemma get_null_is_absent_witness :
  get z_of_text nameless 1 = (None, []).
Proof. apply (get_null_is_absent z_of_text nameless 1). reflexivity. Defined.

Lemma lookup_then_register_once_witness :
  calls_of (get_class_name (fresh None)) = [EvReflect typeid] ∧
  result_of (get_class_name (fresh None)) = Done "User" ∧
  result_of (get_class_name (T := silent_type) (fresh None)) = Aborted.
Proof.
  assert (Hfresh : absent (reflector (fresh None)) = true) by reflexivity.
  assert (Hsilent : absent (T := silent_type) (reflector (fresh None)) = true) by reflexivity.
  destruct (lookup_then_register_once (fresh None)) as [_ Hregister].
  destruct (Hregister Hfresh) as (_ & Hcalls & _ & _ & _ & Hnow).
  destruct (lookup_then_register_once (T := silent_type) (fresh None)) as [_ Hnothing].
  destruct (Hnothing Hsilent) as (_ & _ & _ & _ & Hstill & _).
  split; [exact Hcalls|]. split.
  - apply Hnow. vm_compute. reflexivity.
  - apply Hstill. vm_compute. reflexivity.
Defined.

Lemma aggregates_present_or_absent_witness :
  (result_of (count CondEmpty (fresh (Some (scalar (Some "0"))))) = Done (Some 0) ∧
   result_of (count CondEmpty (fresh (Some (scalar (Some huge))))) =
     Done (Some 9223372036854775807)) ∧
  (facade_calls (calls_of (sum (Some "age") CondEmpty (fresh (Some (scalar None))))) =
     ["SELECT SUM(age) FROM User"] ∧
   result_of (sum (Some "age") CondEmpty (fresh (Some (scalar None)))) = Done None) ∧
  (facade_calls (calls_of (average (Some "age") CondEmpty (fresh (Some (scalar (Some "35.5")))))) =
     ["SELECT AVG(age) FROM User"] ∧
   result_of (average (Some "age") CondEmpty (fresh (Some (scalar (Some "35.5"))))) =
     Done (Some (atof "35.5"))).
Proof.
  assert (Hname : ∀ answer, absent (reflector (registered_world (fresh answer))) = false)
    by (intros answer; vm_compute; reflexivity).
  split; [|split].
  - split.
    + pose proof (aggregates_present_or_absent None CondEmpty
                    (fresh (Some (scalar (Some "0")))) (Hname _)) as [Hcount _].
      specialize (Hcount "SELECT COUNT(*) FROM User" (Some (scalar (Some "0")))).
      feed Hcount; [vm_compute; reflexivity|].
      feed Hcount; [reflexivity|].
      feed Hcount; [reflexivity|].
      destruct Hcount as (_ & _ & Hpresent).
      specialize (Hpresent (scalar (Some "0")) "0").
      feed Hpresent; [reflexivity|].
      feed Hpresent; [reflexivity|].
      destruct Hpresent as (_ & _ & Hzero). apply Hzero. reflexivity.
    + pose proof (aggregates_present_or_absent None CondEmpty
                    (fresh (Some (scalar (Some huge)))) (Hname _)) as [Hcount _].
      specialize (Hcount "SELECT COUNT(*) FROM User" (Some (scalar (Some huge)))).
      feed Hcount; [vm_compute; reflexivity|].
      feed Hcount; [reflexivity|].
      feed Hcount; [reflexivity|].
      destruct Hcount as (_ & _ & Hpresent).
      specialize (Hpresent (scalar (Some huge)) huge).
      feed Hpresent; [reflexivity|].
      feed Hpresent; [reflexivity|].
      destruct Hpresent as (Hvalue & _). rewrite Hvalue. vm_compute. reflexivity.
  - pose proof (aggregates_present_or_absent (Some "age") CondEmpty
                  (fresh (Some (scalar None))) (Hname _)) as (_ & Hsum & _).
    feed Hsum; [vm_compute; reflexivity|].
    specialize (Hsum "SELECT SUM(age) FROM User" (Some (scalar None))).
    feed Hsum; [vm_compute; reflexivity|].
    feed Hsum; [reflexivity|].
    feed Hsum; [reflexivity|].
    destruct Hsum as (Hfacade & _ & Habsent).
    split; [exact Hfacade|]. apply Habsent.
    right. exists (scalar None). split; reflexivity.
  - pose proof (aggregates_present_or_absent (Some "age") CondEmpty
                  (fresh (Some (scalar (Some "35.5")))) (Hname _)) as (_ & _ & Haverage).
    feed Haverage; [vm_compute; reflexivity|].
    specialize (Haverage "SELECT AVG(age) FROM User" (Some (scalar (Some "35.5")))).
    feed Haverage; [vm_compute; reflexivity|].
    feed Haverage; [reflexivity|].
    feed Haverage; [reflexivity|].
    destruct Haverage as (Hfacade & Hresult & _).
    split; [exact Hfacade|exact Hresult].
Defined.

Lemma aggregate_empty_sql_aborts_witness :
  result_of (count bad_cond (fresh (Some (scalar (Some "0"))))) = Aborted ∧
  facade_calls (calls_of (count bad_cond (fresh (Some (scalar (Some "0")))))) = [].
Proof.
  apply (proj1 (proj2 (aggregate_empty_sql_aborts None bad_cond
                         (fresh (Some (scalar (Some "0"))))))).
  in_calls.
Defined.

(** C8 fails on a condition the compiler rejects: [count] gets the empty
    string back and ends in the abort of [TARO_ASSERT( !sql.empty() )], where
    the claim has an absent value returned without an abort. *)
Lemma count_aborts_on_empty_sql :
  count_tbl_sql "User" bad_cond = "" ∧
  EvCompile "" ∈ calls_of (count bad_cond (fresh (Some (scalar (Some "0"))))) ∧
  result_of (count bad_cond (fresh (Some (scalar (Some "0"))))) = Aborted.
Proof. split; [reflexivity|]. split; [in_calls|reflexivity]. Qed.

Lemma only_drop_table_bypasses_compiler_witness :
  calls_of (drop_table (fresh None)) =
    registration_calls (fresh None) ++ [EvFacade ExcuteCmd ("drop table " +:+ "User")].
Proof.
  apply (proj2 (proj2 (proj2 (proj2 (only_drop_table_bypasses_compiler (fresh None)))))).
  reflexivity.
Defined.

(** C9 fails on [drop_table]: the text it hands to [excute_cmd] was returned
    by no compiler call. *)
Lemma drop_table_builds_its_sql :
  calls_of (drop_table (fresh None)) =
    [EvReflect 1%N; EvFacade ExcuteCmd "drop table User"] ∧
  compiled_only [] (calls_of (drop_table (fresh None))) = false.
Proof. split; reflexivity. Qed.

Lemma no_columns_no_objects_witness :
  result_of (query [] (fresh (Some no_columns))) = Done [] ∧
  deserialize_calls (calls_of (query [] (fresh (Some no_columns)))) = [].
Proof.
  apply (no_columns_no_objects [] (fresh (Some no_columns)) no_columns).
  - in_calls.
  - reflexivity.
Defined.

Lemma engine_untouched_without_facade_witness :
  engine (run_op (OpCount bad_cond) (fresh (Some (scalar (Some "7"))))).1.2 =
    engine (fresh (Some (scalar (Some "7")))).
Proof.
  apply (engine_untouched_without_facade (OpCount bad_cond)
           (fresh (Some (scalar (Some "7"))))).
  vm_compute. reflexivity.
Defined.

Lemma registered_type_is_left_alone_witness :
  reflector (run_op (OpQuery []) (registered_world (fresh (Some two_users)))).1.2 =
    reflector (registered_world (fresh (Some two_users))) ∧
  Forall no_reflect (run_op (OpQuery []) (registered_world (fresh (Some two_users)))).2.
Proof.
  apply (registered_type_is_left_alone (OpQuery [])
           (registered_world (fresh (Some two_users)))).
  vm_compute. reflexivity.
Defined.

Lemma registration_happens_once_witness :
  Forall no_reflect
    (run_op (OpQuery []) (run_op (OpMutation (CreateTable [])) (fresh (Some two_users))).1.2).2 ∧
  reflector
    (run_op (OpQuery []) (run_op (OpMutation (CreateTable [])) (fresh (Some two_users))).1.2).1.2 =
  reflector (run_op (OpMutation (CreateTable [])) (fresh (Some two_users))).1.2.
Proof.
  apply (registration_happens_once (OpMutation (CreateTable [])) (OpQuery [])
           (fresh (Some two_users))).
  vm_compute. reflexivity.
Defined.

Lemma unregistered_type_aborts_witness :
  (run_op (T := silent_type) OpDropTable (fresh None)).1.1 = false ∧
  compile_calls (run_op (T := silent_type) OpDropTable (fresh None)).2 = [] ∧
  facade_calls (run_op (T := silent_type) OpDropTable (fresh None)).2 = [] ∧
  engine (run_op (T := silent_type) OpDropTable (fresh None)).1.2 = engine (fresh None).
Proof.
  apply (unregistered_type_aborts (T := silent_type) OpDropTable (fresh None)).
  vm_compute. reflexivity.
Defined.

Lemma memberless_type_aborts_witness :
  run_op (T := memberless_type) (OpQuery []) (fresh (Some two_users)) =
    (false, registered_world (T := memberless_type) (fresh (Some two_users)),
     registration_calls (T := memberless_type) (fresh (Some two_users))).
Proof.
  apply (memberless_type_aborts (T := memberless_type) (OpQuery [])
           (fresh (Some two_users))).
  - reflexivity.
  - vm_compute. reflexivity.
Defined.

Lemma mutation_reports_execution_status_witness :
  "DELETE FROM User" = mutation_sql (db := refusing) (Remove CondEmpty) refused ∧
  facade_calls (calls_of (run_mutation (db := refusing) (Remove CondEmpty) refused)) =
    ["DELETE FROM User"] ∧
  result_of (run_mutation (db := refusing) (Remove CondEmpty) refused) =
    Done (if TARO_OK =? (excute_cmd (DataBase := refusing) "DELETE FROM User"
                           (engine refused)).1
          then TARO_OK else TARO_ERR_FAILED) ∧
  engine (world_of (run_mutation (db := refusing) (Remove CondEmpty) refused)) =
    (excute_cmd (DataBase := refusing) "DELETE FROM User" (engine refused)).2.
Proof.
  apply (mutation_reports_execution_status (db := refusing) (Remove CondEmpty) refused
           "DELETE FROM User").
  in_calls.
Defined.

Lemma insert_ret_id_present_iff_executed_witness :
  result_of (insert_ret_id (mkUser 0 "Alice" 30) [] (fresh None)) = Done (Some 1).
Proof.
  apply (proj2 (insert_ret_id_present_iff_executed (mkUser 0 "Alice" 30) [] (fresh None)) 1).
  exists "INSERT INTO User (name) VALUES ('Alice')", None. split.
  - in_calls.
  - reflexivity.
Defined.

Lemma drop_table_reports_execution_status_witness :
  result_of (drop_table (db := refusing) refused) =
    Done (if TARO_OK =? (excute_cmd (DataBase := refusing)
                           ("drop table " +:+
                            find_class_name (reflector (registered_world refused)) typeid)
                           (engine refused)).1
          then TARO_OK else TARO_ERR_FAILED) ∧
  compile_calls (calls_of (drop_table (db := refusing) refused)) = [] ∧
  facade_calls (calls_of (drop_table (db := refusing) refused)) =
    ["drop table " +:+ find_class_name (reflector (registered_world refused)) typeid] ∧
  engine (world_of (drop_table (db := refusing) refused)) =
    (excute_cmd (DataBase := refusing)
       ("drop table " +:+ find_class_name (reflector (registered_world refused)) typeid)
       (engine refused)).2.
Proof.
  apply (drop_table_reports_execution_status (db := refusing) refused).
  vm_compute. reflexivity.
Defined.

Lemma query_soft_failures_witness :
  result_of (query [λ p, mkQueryParam None bad_cond [] None None] (fresh (Some two_users))) =
    Done [] ∧
  result_of (query (db := refusing) [] refused) = Done [].
Proof.
  split.
  - apply (proj1 (query_soft_failures [λ p, mkQueryParam None bad_cond [] None None]
                    (fresh (Some two_users)))).
    in_calls.
  - apply (proj2 (query_soft_failures (db := refusing) [] refused)).
    in_calls.
Defined.

Lemma query_returns_at_least_one_object_witness :
  length [mkUser 0 "" 0] = Nat.max 1 (length (rows no_rows)).
Proof.
  apply (query_returns_at_least_one_object [] (fresh (Some no_rows)) no_rows).
  - in_calls.
  - discriminate.
  - vm_compute. reflexivity.
Defined.

Lemma invalid_column_aborts_first_witness :
  sum None CondEmpty (fresh None) = (Aborted, fresh None, []) ∧
  average None CondEmpty (fresh None) = (Aborted, fresh None, []).
Proof. apply (invalid_column_aborts_first None CondEmpty (fresh None)). reflexivity. Defined.
